(** * Coverage report of parsed versus unknown FLP events

    A shallow embedding of [tools/flp_parse_report.py] together with the
    properties its specification states about it.

    Conventions of the embedding:
    - a Python [str] is a [string]; [int] is [Z] (identifiers, limits,
      totals) or [nat] (occurrence counts, which are never negative);
    - the [float] percentages are read as exact rationals ([Q]): the
      rounding of binary64 arithmetic is not part of the model;
    - [collections.Counter] is an association list in first-insertion
      order, which is the iteration order of the underlying [dict];
    - the events delivered by the parser library are values of [Event];
      what the script observes of an event is its identifier, the optional
      symbolic name of that identifier, the name of its class, and whether
      the class is [UnknownDataEvent], [VSTPluginEvent] or something else. *)

From stdpp Require Import base strings list pretty numbers gmap.
From Stdlib Require Import QArith Lqa Strings.Ascii Strings.Byte Sorting.Sorted.

Open Scope Z_scope.

(** ** Data model: what the parser library hands to the script *)

(** [sub_event["id"]]: a plain [int] when the library has no name for the
    code, a member of an integer enumeration otherwise.  The test
    [type(sub_event["id"]) is int] holds for the first form only. *)
Inductive SubId :=
  | RawInt (code : Z)
  | Symbolic (name : string) (code : Z).

#[global] Instance SubId_eq_dec : EqDecision SubId.
Proof. solve_decision. Defined.

Record SubEvent := {
  sub_id : SubId;
  sub_data : list byte
}.

(** The class of a top-level event, as far as [isinstance] tells. *)
Inductive EventClass :=
  | UnknownDataEvent
  | VSTPluginEvent (events : list SubEvent)
  | KnownEvent.

(** [event.id]: always convertible with [int(...)]; it has a [name]
    attribute only when it is a member of an enumeration. *)
Record EventId := {
  id_value : Z;
  id_name : option string
}.

Record Event := {
  ev_id : EventId;
  ev_type_name : string;     (* type(event).__name__ *)
  ev_class : EventClass
}.

Definition is_UnknownDataEvent (event : Event) : bool :=
  match ev_class event with UnknownDataEvent => true | _ => false end.

Definition is_VSTPluginEvent (event : Event) : bool :=
  match ev_class event with VSTPluginEvent _ => true | _ => false end.

Definition is_raw_int (i : SubId) : bool :=
  match i with RawInt _ => true | Symbolic _ _ => false end.

Definition sub_id_value (i : SubId) : Z :=
  match i with RawInt n => n | Symbolic _ n => n end.

(** ** [_pct] and [_event_id_name] *)

(** [a / b] on integers: a [ZeroDivisionError] when [b] is zero. *)
Definition truediv (a b : Z) : option Q :=
  if decide (b = 0) then None else Some (inject_Z a / inject_Z b)%Q.

Definition _pct (numerator denominator : Z) : option Q :=
  if decide (denominator = 0) then Some 0%Q
  else q ← truediv numerator denominator; Some (q * 100)%Q.

Definition _event_id_name (event : Event) : string :=
  match id_name (ev_id event) with
  | None => pretty (id_value (ev_id event))
  | Some name => name
  end.

(** ** [collections.Counter] *)

Section counter.
Context {K : Type} `{EqDecision K}.

(** [c[k] += 1], a new key going to the end of the dictionary. *)
Fixpoint counter_add (k : K) (c : list (K * nat)) : list (K * nat) :=
  match c with
  | [] => [(k, 1%nat)]
  | (k', n) :: c' =>
      if decide (k = k') then (k', S n) :: c'
      else (k', n) :: counter_add k c'
  end.

(** [Counter(iterable)] *)
Definition Counter (keys : list K) : list (K * nat) :=
  fold_left (fun c k => counter_add k c) keys [].

(** [sorted(items, key=itemgetter(1), reverse=True)]: Python's sort is
    stable, also with [reverse=True], so an item moves in front of the
    items of strictly smaller count only. *)
Fixpoint insert_desc (x : K * nat) (l : list (K * nat)) : list (K * nat) :=
  match l with
  | [] => [x]
  | y :: l' =>
      if decide (x.2 < y.2)%nat then y :: insert_desc x l'
      else x :: y :: l'
  end.

Definition sorted_desc (items : list (K * nat)) : list (K * nat) :=
  foldr insert_desc [] items.

(** [Counter.most_common(n)] for an integer [n] is
    [heapq.nlargest(n, items, key=itemgetter(1))], which agrees with
    [sorted(items, key=..., reverse=True)[:n]] for positive [n] and
    returns the empty list for [n <= 0]. *)
Definition most_common (n : Z) (c : list (K * nat)) : list (K * nat) :=
  if decide (n ≤ 0) then [] else take (Z.to_nat n) (sorted_desc c).

(** [most_common(None)]: the whole ranking. *)
Definition most_common_all (c : list (K * nat)) : list (K * nat) :=
  sorted_desc c.
End counter.

(** ** The aggregation part of [build_report] *)

Definition total_events (events : list Event) : Z :=
  Z.of_nat (length events).

Definition unknown_top_level (events : list Event) : list Event :=
  filter (fun event => is_UnknownDataEvent event = true) events.

Definition parsed_events (events : list Event) : Z :=
  total_events events - Z.of_nat (length (unknown_top_level events)).

Definition type_keys (events : list Event) : list string :=
  map ev_type_name events.

Definition id_keys (events : list Event) : list (Z * string * string) :=
  map (fun event =>
         (id_value (ev_id event), _event_id_name event, ev_type_name event))
      events.

Definition unknown_id_keys (events : list Event) : list Z :=
  map (fun event => id_value (ev_id event)) (unknown_top_level events).

Definition event_type_counts (events : list Event) : list (string * nat) :=
  Counter (type_keys events).

Definition top_level_id_counts (events : list Event)
  : list ((Z * string * string) * nat) :=
  Counter (id_keys events).

Definition unknown_top_level_id_counts (events : list Event) : list (Z * nat) :=
  Counter (unknown_id_keys events).

(** The loop over the sub-events of one plugin event, appending to the
    list built so far. *)
Definition scan_sub_events (acc : list (Z * nat)) (subs : list SubEvent)
  : list (Z * nat) :=
  fold_left
    (fun acc sub_event =>
       match sub_id sub_event with
       | RawInt n => acc ++ [(n, length (sub_data sub_event))]
       | Symbolic _ _ => acc
       end)
    subs acc.

(** The loop over the events. *)
Definition unknown_vst_subevents (events : list Event) : list (Z * nat) :=
  fold_left
    (fun acc event =>
       match ev_class event with
       | VSTPluginEvent subs => scan_sub_events acc subs
       | _ => acc
       end)
    events [].

Definition unknown_vst_keys (events : list Event) : list Z :=
  map fst (unknown_vst_subevents events).

Definition unknown_vst_counts (events : list Event) : list (Z * nat) :=
  Counter (unknown_vst_keys events).

(** ** Strings: [str(int)], [html.escape], [str.join], [format(x, ".2f")] *)

Definition dq : string := String "034"%char EmptyString.
Definition nl : string := String "010"%char EmptyString.

(** [s.replace(old, new)] for a pattern of one character. *)
Fixpoint str_replace_char (old : ascii) (new : string) (s : string) : string :=
  match s with
  | EmptyString => EmptyString
  | String c s' =>
      if Ascii.eqb c old then new +:+ str_replace_char old new s'
      else String c (str_replace_char old new s')
  end.

(** [html.escape(s)] with its default [quote=True]: five replacements,
    the ampersand first. *)
Definition html_escape (s : string) : string :=
  let s := str_replace_char "&"%char "&amp;" s in
  let s := str_replace_char "<"%char "&lt;" s in
  let s := str_replace_char ">"%char "&gt;" s in
  let s := str_replace_char "034"%char "&quot;" s in
  let s := str_replace_char "'"%char "&#x27;" s in
  s.

(** [sep.join(parts)] *)
Fixpoint str_join (sep : string) (parts : list string) : string :=
  match parts with
  | [] => EmptyString
  | x :: rest =>
      match rest with
      | [] => x
      | _ :: _ => x +:+ sep +:+ str_join sep rest
      end
  end.

(** Rounding to the nearest integer, ties to the even one. *)
Definition round_half_even (q : Q) : Z :=
  let n := Qnum q in
  let d := Z.pos (Qden q) in
  let lo := n `div` d in
  let twice_rem := 2 * (n `mod` d) in
  if decide (twice_rem < d) then lo
  else if decide (d < twice_rem) then lo + 1
  else if Z.even lo then lo else lo + 1.

Definition two_digits (n : Z) : string :=
  if decide (n < 10) then "0" +:+ pretty n else pretty n.

(** [f"{x:.2f}"]: sign, integer part, a dot and two decimals. *)
Definition format_2f (x : Q) : string :=
  let hundredths := round_half_even (x * 100)%Q in
  let a := Z.abs hundredths in
  (if decide (hundredths < 0) then "-" else EmptyString)
    +:+ pretty (a `div` 100) +:+ "." +:+ two_digits (a `mod` 100).

(** ** The values [build_report] computes before it fills the template *)

Record Report := {
  r_total_events : Z;
  r_unknown_top_level : list Event;
  r_parsed_events : Z;
  r_unknown_vst_subevents : list (Z * nat);
  r_parsed_pct : Q;
  r_unknown_pct : Q;
  (* the results of the four calls of [most_common(top_n)] *)
  r_type_table : list (string * nat);
  r_id_table : list ((Z * string * string) * nat);
  r_unknown_top_level_table : list (Z * nat);
  r_unknown_vst_table : list (Z * nat)
}.

(** A [ZeroDivisionError] is the one way this part could raise: the
    result is [None] then. *)
Definition aggregate (events : list Event) (top_n : Z) : option Report :=
  let total := total_events events in
  let parsed := parsed_events events in
  parsed_pct ← _pct parsed total;
  let unknown_pct :=
    if decide (total = 0) then 0%Q else (100 - parsed_pct)%Q in
  Some {|
    r_total_events := total;
    r_unknown_top_level := unknown_top_level events;
    r_parsed_events := parsed;
    r_unknown_vst_subevents := unknown_vst_subevents events;
    r_parsed_pct := parsed_pct;
    r_unknown_pct := unknown_pct;
    r_type_table := most_common top_n (event_type_counts events);
    r_id_table := most_common top_n (top_level_id_counts events);
    r_unknown_top_level_table :=
      most_common top_n (unknown_top_level_id_counts events);
    r_unknown_vst_table := most_common top_n (unknown_vst_counts events)
  |}.

(** ** The rendering part of [build_report] *)

(** [rows = "\n".join(...)], then [if not rows: rows = placeholder]. *)
Definition rows_or (placeholder : string) (rows : list string) : string :=
  match str_join nl rows with
  | EmptyString => placeholder
  | String c s => String c s
  end.

Definition type_row (row : string * nat) : string :=
  "<tr>" +:+
  "<td>" +:+ html_escape row.1 +:+ "</td>" +:+
  "<td>" +:+ pretty row.2 +:+ "</td>" +:+
  "</tr>".

Definition id_row (row : (Z * string * string) * nat) : string :=
  let '((event_id, event_name, event_type), count) := row in
  "<tr>" +:+
  "<td>" +:+ pretty event_id +:+ "</td>" +:+
  "<td>" +:+ html_escape event_name +:+ "</td>" +:+
  "<td>" +:+ html_escape event_type +:+ "</td>" +:+
  "<td>" +:+ pretty count +:+ "</td>" +:+
  "</tr>".

Definition count_row (row : Z * nat) : string :=
  "<tr>" +:+
  "<td>" +:+ pretty row.1 +:+ "</td>" +:+
  "<td>" +:+ pretty row.2 +:+ "</td>" +:+
  "</tr>".

Definition no_events_2 : string := "<tr><td colspan='2'>No events</td></tr>".
Definition no_events_4 : string := "<tr><td colspan='4'>No events</td></tr>".
Definition none_2 : string := "<tr><td colspan='2'>None</td></tr>".

Definition type_rows (r : Report) : string :=
  rows_or no_events_2 (map type_row (r_type_table r)).

Definition id_rows (r : Report) : string :=
  rows_or no_events_4 (map id_row (r_id_table r)).

Definition unknown_top_level_rows (r : Report) : string :=
  rows_or none_2 (map count_row (r_unknown_top_level_table r)).

Definition unknown_vst_rows (r : Report) : string :=
  rows_or none_2 (map count_row (r_unknown_vst_table r)).

(** ['bad' if unknown_top_level else 'ok'] *)
Definition unknown_top_level_class (r : Report) : string :=
  match r_unknown_top_level r with [] => "ok" | _ :: _ => "bad" end.

(** ['warn' if unknown_vst_subevents else 'ok'] *)
Definition unknown_vst_class (r : Report) : string :=
  match r_unknown_vst_subevents r with [] => "ok" | _ :: _ => "warn" end.

(** The template up to the place of the file name; it has no holes. *)
Definition page_head : string :=
  "<!doctype html>" +:+ nl +:+
  "<html lang=" +:+ dq +:+ "en" +:+ dq +:+ ">" +:+ nl +:+
  "<head>" +:+ nl +:+
  "<meta charset=" +:+ dq +:+ "utf-8" +:+ dq +:+ ">" +:+ nl +:+
  "<meta name=" +:+ dq +:+ "viewport" +:+ dq +:+ " content=" +:+ dq +:+ "width=device-width, initial-scale=1" +:+ dq +:+ ">" +:+ nl +:+
  "<title>PyFLP Parse Report</title>" +:+ nl +:+
  "<style>" +:+ nl +:+
  "* { box-sizing: border-box; }" +:+ nl +:+
  "body {" +:+ nl +:+
  "  margin: 24px;" +:+ nl +:+
  "  font-family: " +:+ dq +:+ "SF Pro Text" +:+ dq +:+ ", " +:+ dq +:+ "Segoe UI" +:+ dq +:+ ", sans-serif;" +:+ nl +:+
  "  color: #1f2937;" +:+ nl +:+
  "  background: linear-gradient(180deg, #f7fafc, #eef2f7);" +:+ nl +:+
  "}" +:+ nl +:+
  "h1, h2 { margin-top: 0; }" +:+ nl +:+
  ".grid {" +:+ nl +:+
  "  display: grid;" +:+ nl +:+
  "  grid-template-columns: repeat(auto-fit, minmax(220px, 1fr));" +:+ nl +:+
  "  gap: 12px;" +:+ nl +:+
  "  margin-bottom: 20px;" +:+ nl +:+
  "}" +:+ nl +:+
  ".card {" +:+ nl +:+
  "  background: #ffffff;" +:+ nl +:+
  "  border: 1px solid #dbe3ee;" +:+ nl +:+
  "  border-radius: 12px;" +:+ nl +:+
  "  padding: 14px;" +:+ nl +:+
  "  box-shadow: 0 2px 6px rgba(0, 0, 0, 0.05);" +:+ nl +:+
  "}" +:+ nl +:+
  ".metric { font-size: 28px; font-weight: 700; margin-top: 8px; }" +:+ nl +:+
  ".ok { color: #127d3e; }" +:+ nl +:+
  ".warn { color: #b54708; }" +:+ nl +:+
  ".bad { color: #b42318; }" +:+ nl +:+
  ".bar {" +:+ nl +:+
  "  width: 100%;" +:+ nl +:+
  "  height: 16px;" +:+ nl +:+
  "  border-radius: 999px;" +:+ nl +:+
  "  overflow: hidden;" +:+ nl +:+
  "  background: #e5e7eb;" +:+ nl +:+
  "  border: 1px solid #d1d5db;" +:+ nl +:+
  "}" +:+ nl +:+
  ".bar > div {" +:+ nl +:+
  "  height: 100%;" +:+ nl +:+
  "  background: linear-gradient(90deg, #16a34a, #4ade80);" +:+ nl +:+
  "}" +:+ nl +:+
  "table {" +:+ nl +:+
  "  width: 100%;" +:+ nl +:+
  "  border-collapse: collapse;" +:+ nl +:+
  "  background: #fff;" +:+ nl +:+
  "  border: 1px solid #dbe3ee;" +:+ nl +:+
  "  border-radius: 10px;" +:+ nl +:+
  "  overflow: hidden;" +:+ nl +:+
  "}" +:+ nl +:+
  "th, td { text-align: left; padding: 10px; border-bottom: 1px solid #eef2f7; }" +:+ nl +:+
  "th { background: #f8fafc; font-weight: 600; }" +:+ nl +:+
  "section { margin-bottom: 20px; }" +:+ nl +:+
  "</style>" +:+ nl +:+
  "</head>" +:+ nl +:+
  "<body>" +:+ nl +:+
  "<h1>PyFLP Parse Coverage Report</h1>" +:+ nl +:+
  "<p><strong>File:</strong> ".

(** The template filled in.  [flp_path] is the text of
    [str(flp_path.resolve())]. *)
Definition render_report (flp_path : string) (top_n : Z) (r : Report) : string :=
  page_head +:+
  (html_escape flp_path) +:+ "</p>" +:+ nl +:+
  nl +:+
  "<div class=" +:+ dq +:+ "grid" +:+ dq +:+ ">" +:+ nl +:+
  "  <div class=" +:+ dq +:+ "card" +:+ dq +:+ ">" +:+ nl +:+
  "    <div>Total events</div>" +:+ nl +:+
  "    <div class=" +:+ dq +:+ "metric" +:+ dq +:+ ">" +:+ (pretty (r_total_events r)) +:+ "</div>" +:+ nl +:+
  "  </div>" +:+ nl +:+
  "  <div class=" +:+ dq +:+ "card" +:+ dq +:+ ">" +:+ nl +:+
  "    <div>Parsed events</div>" +:+ nl +:+
  "    <div class=" +:+ dq +:+ "metric ok" +:+ dq +:+ ">" +:+ (pretty (r_parsed_events r)) +:+ " (" +:+ (format_2f (r_parsed_pct r)) +:+ "%)</div>" +:+ nl +:+
  "  </div>" +:+ nl +:+
  "  <div class=" +:+ dq +:+ "card" +:+ dq +:+ ">" +:+ nl +:+
  "    <div>Unknown top-level events</div>" +:+ nl +:+
  "    <div class=" +:+ dq +:+ "metric " +:+ (unknown_top_level_class r) +:+ dq +:+ ">" +:+ (pretty (length (r_unknown_top_level r))) +:+ " (" +:+ (format_2f (r_unknown_pct r)) +:+ "%)</div>" +:+ nl +:+
  "  </div>" +:+ nl +:+
  "  <div class=" +:+ dq +:+ "card" +:+ dq +:+ ">" +:+ nl +:+
  "    <div>Unknown VST sub-events</div>" +:+ nl +:+
  "    <div class=" +:+ dq +:+ "metric " +:+ (unknown_vst_class r) +:+ dq +:+ ">" +:+ (pretty (length (r_unknown_vst_subevents r))) +:+ "</div>" +:+ nl +:+
  "  </div>" +:+ nl +:+
  "</div>" +:+ nl +:+
  nl +:+
  "<section class=" +:+ dq +:+ "card" +:+ dq +:+ ">" +:+ nl +:+
  "  <h2>Top-level Parse Coverage</h2>" +:+ nl +:+
  "  <div class=" +:+ dq +:+ "bar" +:+ dq +:+ "><div style=" +:+ dq +:+ "width: " +:+ (format_2f (r_parsed_pct r)) +:+ "%" +:+ dq +:+ "></div></div>" +:+ nl +:+
  "  <p>" +:+ (pretty (r_parsed_events r)) +:+ " of " +:+ (pretty (r_total_events r)) +:+ " top-level events parsed into known event types.</p>" +:+ nl +:+
  "</section>" +:+ nl +:+
  nl +:+
  "<section>" +:+ nl +:+
  "  <h2>Top Event Types (Top " +:+ (pretty top_n) +:+ ")</h2>" +:+ nl +:+
  "  <table>" +:+ nl +:+
  "    <thead><tr><th>Event Type</th><th>Count</th></tr></thead>" +:+ nl +:+
  "    <tbody>" +:+ (type_rows r) +:+ "</tbody>" +:+ nl +:+
  "  </table>" +:+ nl +:+
  "</section>" +:+ nl +:+
  nl +:+
  "<section>" +:+ nl +:+
  "  <h2>Top Event IDs (Top " +:+ (pretty top_n) +:+ ")</h2>" +:+ nl +:+
  "  <table>" +:+ nl +:+
  "    <thead><tr><th>ID</th><th>Name</th><th>Parsed As</th><th>Count</th></tr></thead>" +:+ nl +:+
  "    <tbody>" +:+ (id_rows r) +:+ "</tbody>" +:+ nl +:+
  "  </table>" +:+ nl +:+
  "</section>" +:+ nl +:+
  nl +:+
  "<section>" +:+ nl +:+
  "  <h2>Unknown Top-level Event IDs (Top " +:+ (pretty top_n) +:+ ")</h2>" +:+ nl +:+
  "  <table>" +:+ nl +:+
  "    <thead><tr><th>ID</th><th>Count</th></tr></thead>" +:+ nl +:+
  "    <tbody>" +:+ (unknown_top_level_rows r) +:+ "</tbody>" +:+ nl +:+
  "  </table>" +:+ nl +:+
  "</section>" +:+ nl +:+
  nl +:+
  "<section>" +:+ nl +:+
  "  <h2>Unknown VST Sub-event IDs (Top " +:+ (pretty top_n) +:+ ")</h2>" +:+ nl +:+
  "  <table>" +:+ nl +:+
  "    <thead><tr><th>Sub-event ID</th><th>Count</th></tr></thead>" +:+ nl +:+
  "    <tbody>" +:+ (unknown_vst_rows r) +:+ "</tbody>" +:+ nl +:+
  "  </table>" +:+ nl +:+
  "</section>" +:+ nl +:+
  "</body>" +:+ nl +:+
  "</html>" +:+ nl.

(** [build_report] from [events = list(project.events)] on: the import
    of the parser library and the call of [pyflp.parse] that come before
    are in [load_events] below. *)
Definition build_report (flp_path : string) (events : list Event) (top_n : Z)
  : option string :=
  render_report flp_path top_n <$> aggregate events top_n.

(** ** The script as a program: imports, files and the exit status *)

Inductive Exception :=
  | ModuleNotFoundError (name : option string)
  | SystemExit (message : string)
  | OtherError (description : string).

(** The part of the interpreter's state the script reads or changes. *)
Record World := {
  sys_path : list string;
  files : gmap string string;
  stdout : list string
}.

(** What the script does not decide itself. *)
Record Env := {
  (* the three import statements, run with a given [sys.path] *)
  run_imports : list string → option Exception;
  (* [str(Path(__file__).resolve().parents[1])] *)
  repo_root : string;
  (* [list(pyflp.parse(path).events)] on the current files *)
  pyflp_parse : gmap string string → string → Exception + list Event;
  (* [str(path.resolve())] *)
  resolve : string → string;
  (* whether [open(path, "w")] succeeds *)
  writable : string → bool
}.

(** Computations that read and change the [World] and may raise. *)
Definition M (A : Type) : Type := World → (Exception + A) * World.

Definition raise {A} (e : Exception) : M A := fun w => (inl e, w).

#[global] Instance M_ret : MRet M := fun A x w => (inr x, w).

#[global] Instance M_bind : MBind M := fun A B k m w =>
  match m w with
  | (inl e, w') => (inl e, w')
  | (inr x, w') => k x w'
  end.

Definition get_world : M World := fun w => (inr w, w).

Definition sys_path_insert0 (p : string) : M unit := fun w =>
  (inr (), {| sys_path := p :: sys_path w; files := files w; stdout := stdout w |}).

Definition write_text (env : Env) (path content : string) : M unit := fun w =>
  if writable env path
  then (inr (), {| sys_path := sys_path w;
                   files := <[path := content]> (files w);
                   stdout := stdout w |})
  else (inl (OtherError "OSError"), w).

Definition print (line : string) : M unit := fun w =>
  (inr (), {| sys_path := sys_path w; files := files w;
              stdout := stdout w ++ [line] |}).

(** [exc.name or "dependency"] *)
Definition missing_name (name : option string) : string :=
  match name with
  | Some (String c s) => String c s
  | _ => "dependency"
  end.

Definition import_failure_message (missing : string) : string :=
  "Could not import pyflp runtime dependency " +:+
  "(" +:+ missing +:+ ")." +:+ nl +:+
  "Install project dependencies and rerun, for example:" +:+ nl +:+
  "  python3.10 -m venv .venv310" +:+ nl +:+
  "  .venv310/bin/pip install -e '.[dev]'" +:+ nl +:+
  "  .venv310/bin/python tools/flp_parse_report.py /path/to/file.flp " +:+
  "-o parse-report.html".

Definition _import_pyflp (env : Env) : M unit :=
  w ← get_world;
  match run_imports env (sys_path w) with
  | None => mret ()
  | Some (ModuleNotFoundError _) =>
      (if decide (repo_root env ∈ sys_path w) then mret ()
       else sys_path_insert0 (repo_root env)) ;;
      w' ← get_world;
      match run_imports env (sys_path w') with
      | None => mret ()
      | Some (ModuleNotFoundError name) =>
          raise (SystemExit (import_failure_message (missing_name name)))
      | Some e => raise e
      end
  | Some e => raise e
  end.

(** The first three statements of [build_report]. *)
Definition load_events (env : Env) (flp_path : string) : M (list Event) :=
  _import_pyflp env ;;
  w ← get_world;
  match pyflp_parse env (files w) flp_path with
  | inl e => raise e
  | inr events => mret events
  end.

(** The command line after [argparse]. *)
Record Args := {
  flp_file : string;
  output : string;
  top : Z
}.

Definition main (env : Env) (args : Args) : M Z :=
  events ← load_events env (flp_file args);
  report_html ←
    match build_report (resolve env (flp_file args)) events (top args) with
    | Some html => mret html
    | None => raise (OtherError "ZeroDivisionError")
    end;
  write_text env (output args) report_html ;;
  print ("Report written to: " +:+ resolve env (output args)) ;;
  mret 0.

(** [raise SystemExit(main())]: the status of the process.  An exit with
    a message, like an exception nobody catches, gives status 1. *)
Definition exit_status (result : Exception + Z) : Z :=
  match result with
  | inr code => code
  | inl _ => 1
  end.

(** ** Vocabulary of the specification *)

(** The value [_pct] returns. *)
Definition pct_value (parsed total : Z) : Q :=
  if decide (total = 0) then 0%Q
  else (inject_Z parsed / inject_Z total * 100)%Q.


Section ranking.
Context {K : Type} `{EqDecision K}.

(** How often a key occurs in the sequence it is counted from. *)
Definition occurrences (k : K) (keys : list K) : nat :=
  length (filter (λ k', k' = k) keys).

(** The position at which a key is seen first. *)
Fixpoint first_index (k : K) (keys : list K) : nat :=
  match keys with
  | [] => 0
  | k' :: rest => if decide (k = k') then 0 else S (first_index k rest)
  end.

(** The distinct keys, each at the place of its first occurrence. *)
Fixpoint first_seen (keys : list K) : list K :=
  match keys with
  | [] => []
  | k :: rest => k :: filter (λ k', k' ≠ k) (first_seen rest)
  end.

(** Row [x] goes before row [y]: a larger count, or the same count and
    a key that was seen earlier. *)
Definition ranks_before (keys : list K) (x y : K * nat) : Prop :=
  (y.2 < x.2)%nat
  ∨ (x.2 = y.2 ∧ (first_index x.1 keys < first_index y.1 keys)%nat).

(** A frequency table of [keys]: every row carries a key of the
    sequence with its number of occurrences, and every row goes before
    all the rows below it. *)
Definition ranked (keys : list K) (table : list (K * nat)) : Prop :=
  StronglySorted (ranks_before keys) table
  ∧ Forall (λ row, row.1 ∈ keys ∧ row.2 = occurrences row.1 keys) table.

(** Every key of the sequence is in exactly one row. *)
Definition each_key_once (keys : list K) (table : list (K * nat)) : Prop :=
  ∀ k, k ∈ keys → occurrences k table.*1 = 1%nat.

(** A table shown under the row limit [n]: the first [n] rows of the
    whole ranking and, when the limit is not below the number of
    distinct keys, a row for every key. *)
Definition top_rows (n : Z) (keys : list K) (table : list (K * nat)) : Prop :=
  table = take (Z.to_nat n) (most_common_all (Counter keys))
  ∧ (Z.of_nat (length (remove_dups keys)) ≤ n → each_key_once keys table).
End ranking.

(** The entry the loop appends for one sub-event: something for a raw
    numeric identifier, nothing for a symbolic one. *)
Definition raw_entry (sub_event : SubEvent) : option (Z * nat) :=
  match sub_id sub_event with
  | RawInt n => Some (n, length (sub_data sub_event))
  | Symbolic _ _ => None
  end.

(** What one top-level event adds to the tally of unknown sub-events. *)
Definition nested_contribution (event : Event) : list (Z * nat) :=
  match ev_class event with
  | VSTPluginEvent subs => omap raw_entry subs
  | _ => []
  end.

(** *** Markup *)

(** The characters that open or close a tag or an attribute value. *)
Definition is_delimiter (c : ascii) : bool :=
  (c =? "<")%char || (c =? ">")%char || (c =? "034")%char || (c =? "'")%char.

(** The delimiters of a text, in their order. *)
Fixpoint specials (s : string) : list ascii :=
  match s with
  | EmptyString => []
  | String c s' => if is_delimiter c then c :: specials s' else specials s'
  end.

(** What may follow an ampersand: the rest of one of the five character
    references [html.escape] writes. *)
Definition is_reference_tail (s : string) : bool :=
  String.prefix "amp;" s || String.prefix "lt;" s || String.prefix "gt;" s
  || String.prefix "quot;" s || String.prefix "#x27;" s.

(** Every ampersand of the text starts a character reference. *)
Fixpoint amp_escaped (s : string) : bool :=
  match s with
  | EmptyString => true
  | String c s' =>
      (if (c =? "&")%char then is_reference_tail s' else true) && amp_escaped s'
  end.

(** A text without delimiters and ampersands. *)
Fixpoint plain (s : string) : bool :=
  match s with
  | EmptyString => true
  | String c s' => negb (is_delimiter c) && negb (c =? "&")%char && plain s'
  end.

(** What [html.escape] makes of one character. *)
Definition escape_char (c : ascii) : string :=
  if (c =? "&")%char then "&amp;"
  else if (c =? "<")%char then "&lt;"
  else if (c =? ">")%char then "&gt;"
  else if (c =? "034")%char then "&quot;"
  else if (c =? "'")%char then "&#x27;"
  else String c EmptyString.

(** The same report with every name and type name replaced by the empty
    text; identifiers and counts stay. *)
Definition blank_texts (r : Report) : Report := {|
  r_total_events := r_total_events r;
  r_unknown_top_level := r_unknown_top_level r;
  r_parsed_events := r_parsed_events r;
  r_unknown_vst_subevents := r_unknown_vst_subevents r;
  r_parsed_pct := r_parsed_pct r;
  r_unknown_pct := r_unknown_pct r;
  r_type_table := map (λ row, (EmptyString, row.2)) (r_type_table r);
  r_id_table :=
    map (λ row, ((row.1.1.1, EmptyString, EmptyString), row.2)) (r_id_table r);
  r_unknown_top_level_table := r_unknown_top_level_table r;
  r_unknown_vst_table := r_unknown_vst_table r
|}.

(** [needle] occurs in [text]. *)
Definition contains (needle text : string) : Prop :=
  ∃ before after, text = before +:+ needle +:+ after.

Definition starts_with (needle text : string) : Prop :=
  ∃ after, text = needle +:+ after.

(** The header row of each table, by which a table is recognised in the
    document. *)
Definition type_table_head : string :=
  "    <thead><tr><th>Event Type</th><th>Count</th></tr></thead>".
Definition id_table_head : string :=
  "    <thead><tr><th>ID</th><th>Name</th><th>Parsed As</th><th>Count</th></tr></thead>".
Definition unknown_top_level_table_head : string :=
  "    <thead><tr><th>ID</th><th>Count</th></tr></thead>".
Definition unknown_vst_table_head : string :=
  "    <thead><tr><th>Sub-event ID</th><th>Count</th></tr></thead>".

(** A table of the document: its header row, then its body. *)
Definition table_in (head rows document : string) : Prop :=
  contains (head +:+ nl +:+ "    <tbody>" +:+ rows +:+ "</tbody>") document.

(** A metric card of the document: its label, then the value in a
    [div] of class [metric] and the given style. *)
Definition card_in (label style value document : string) : Prop :=
  contains
    (label +:+ nl +:+
     "    <div class=" +:+ dq +:+ "metric " +:+ style +:+ dq +:+ ">" +:+ value)
    document.

(** ** Sample inputs *)

Definition sample_known : Event := {|
  ev_id := {| id_value := 64; id_name := Some "New" |};
  ev_type_name := "U16Event";
  ev_class := KnownEvent
|}.

Definition sample_unknown : Event := {|
  ev_id := {| id_value := 250; id_name := None |};
  ev_type_name := "UnknownDataEvent";
  ev_class := UnknownDataEvent
|}.

Definition sample_subs : list SubEvent :=
  [ {| sub_id := RawInt 7; sub_data := [] |};
    {| sub_id := Symbolic "Name" 54; sub_data := [] |};
    {| sub_id := RawInt 7; sub_data := [] |} ].

Definition sample_plugin : Event := {|
  ev_id := {| id_value := 213; id_name := Some "Data" |};
  ev_type_name := "VSTPluginEvent";
  ev_class := VSTPluginEvent sample_subs
|}.

Definition sample_events : list Event :=
  [sample_known; sample_plugin; sample_unknown; sample_known].

(** An installation without the parser library. *)
Definition sample_env_no_parser : Env := {|
  run_imports := λ _, Some (ModuleNotFoundError (Some "pyflp"));
  repo_root := "/repo";
  pyflp_parse := λ _ _, inr sample_events;
  resolve := λ p, p;
  writable := λ _, true
|}.

Definition sample_args : Args := {|
  flp_file := "/tmp/song.flp";
  output := "parse-report.html";
  top := 25
|}.

Definition sample_world : World := {|
  sys_path := ["/usr/lib/python3"];
  files := ∅;
  stdout := []
|}.


(** One where the import fails for another reason, one where the parser
    rejects the file, and one where the output cannot be written. *)
Definition sample_env_broken : Env := {|
  run_imports := λ _, Some (OtherError "ImportError");
  repo_root := "/repo";
  pyflp_parse := λ _ _, inr sample_events;
  resolve := λ p, p;
  writable := λ _, true
|}.

Definition sample_env_bad_file : Env := {|
  run_imports := λ _, None;
  repo_root := "/repo";
  pyflp_parse := λ _ _, inl (OtherError "HeaderCorrupted");
  resolve := λ p, p;
  writable := λ _, true
|}.

Definition sample_env_read_only : Env := {|
  run_imports := λ _, None;
  repo_root := "/repo";
  pyflp_parse := λ _ _, inr sample_events;
  resolve := λ p, p;
  writable := λ _, false
|}.

(** * Properties *)

(** In proofs, let [simpl] compute the concatenation with a text that
    starts with known characters. *)
#[local] Arguments String.append !_ _ / : simpl nomatch.

(** ** The aggregation never raises *)

Lemma _pct_Some numerator denominator :
  _pct numerator denominator = Some (pct_value numerator denominator).
Proof.
  unfold _pct, pct_value, truediv.
  repeat case_decide; done.
Qed.

Lemma aggregate_Some events top_n :
  ∃ r, aggregate events top_n = Some r
    ∧ r_total_events r = total_events events
    ∧ r_unknown_top_level r = unknown_top_level events
    ∧ r_parsed_events r = parsed_events events
    ∧ r_unknown_vst_subevents r = unknown_vst_subevents events
    ∧ r_parsed_pct r = pct_value (parsed_events events) (total_events events)
    ∧ r_unknown_pct r =
        (if decide (total_events events = 0) then 0%Q
         else (100 - r_parsed_pct r)%Q)
    ∧ r_type_table r = most_common top_n (event_type_counts events)
    ∧ r_id_table r = most_common top_n (top_level_id_counts events)
    ∧ r_unknown_top_level_table r =
        most_common top_n (unknown_top_level_id_counts events)
    ∧ r_unknown_vst_table r = most_common top_n (unknown_vst_counts events).
Proof.
  unfold aggregate. rewrite _pct_Some. simpl.
  eexists. split; [reflexivity|]. simpl. repeat split.
Qed.

(** ** Counting recognized and unrecognized events *)

Lemma length_filter_split {A} (P : A → bool) (l : list A) :
  length l =
    (length (filter (λ x, P x = true) l) + length (filter (λ x, P x = false) l))%nat.
Proof.
  induction l as [|x l IH]; [done|].
  rewrite !filter_cons.
  destruct (P x) eqn:HP; repeat case_decide; try done; simpl; lia.
Qed.

(** C1: the summary of [build_report] splits the events into the
    [UnknownDataEvent]s and the rest: the number reported as parsed plus
    the number reported as unknown is the number of events, the unknown
    ones being exactly the events of class [UnknownDataEvent] and the
    parsed ones all the others. *)
Theorem recognized_plus_unrecognized_is_total (events : list Event) (top_n : Z) :
  ∃ r, aggregate events top_n = Some r
    ∧ r_total_events r = Z.of_nat (length events)
    ∧ Z.of_nat (length (r_unknown_top_level r)) =
        Z.of_nat (length (filter (λ e, is_UnknownDataEvent e = true) events))
    ∧ r_parsed_events r =
        Z.of_nat (length (filter (λ e, is_UnknownDataEvent e = false) events))
    ∧ r_parsed_events r + Z.of_nat (length (r_unknown_top_level r))
        = r_total_events r.
Proof.
  destruct (aggregate_Some events top_n)
    as (r & Hr & Ht & Hu & Hp & _).
  exists r. rewrite Ht, Hu, Hp.
  unfold parsed_events, total_events, unknown_top_level.
  pose proof (length_filter_split is_UnknownDataEvent events).
  repeat split; try done; lia.
Qed.

(** ** Percentages *)


(** ** [Counter] and [most_common] *)

Section counter_facts.
Context {K : Type} `{EqDecision K}.
Implicit Types (k : K) (keys : list K) (c : list (K * nat)).

Lemma occurrences_snoc k k' keys :
  occurrences k (keys ++ [k']) =
    if decide (k' = k) then S (occurrences k keys) else occurrences k keys.
Proof.
  unfold occurrences. rewrite filter_app, length_app.
  rewrite filter_cons, filter_nil. case_decide; simpl; lia.
Qed.

Lemma occurrences_0 k keys : k ∉ keys → occurrences k keys = 0%nat.
Proof.
  unfold occurrences. induction keys as [|a keys IH]; [done|].
  rewrite not_elem_of_cons. intros [Hne Hin].
  rewrite filter_cons, decide_False by done. auto.
Qed.

Lemma occurrences_cons k a keys :
  occurrences k (a :: keys) =
    if decide (a = k) then S (occurrences k keys) else occurrences k keys.
Proof. unfold occurrences. rewrite filter_cons. by case_decide. Qed.

Lemma first_seen_elem_of k keys : k ∈ first_seen keys ↔ k ∈ keys.
Proof.
  induction keys as [|a keys IH]; simpl; [done|].
  rewrite !elem_of_cons, list_elem_of_filter, IH.
  destruct (decide (k = a)); tauto.
Qed.

Lemma first_seen_NoDup keys : NoDup (first_seen keys).
Proof.
  induction keys as [|a keys IH]; simpl; [constructor|].
  constructor; [|by apply NoDup_filter].
  rewrite list_elem_of_filter. tauto.
Qed.

Lemma first_seen_snoc keys k :
  first_seen (keys ++ [k]) =
    if decide (k ∈ keys) then first_seen keys else first_seen keys ++ [k].
Proof.
  induction keys as [|a keys IH].
  - destruct (decide (k ∈ [])) as [Hin|_]; [|done].
    by apply elem_of_nil in Hin.
  - cbn [app first_seen]. rewrite IH.
    destruct (decide (k ∈ keys)) as [Hin|Hin];
      destruct (decide (k ∈ a :: keys)) as [Hin'|Hin']; try done.
    + exfalso. apply Hin'. by right.
    + apply elem_of_cons in Hin' as [->|?]; [|done].
      rewrite filter_app, filter_cons, filter_nil.
      rewrite decide_False by tauto. by rewrite app_nil_r.
    + rewrite filter_app, filter_cons, filter_nil.
      rewrite decide_True; [done|].
      intros ->. apply Hin'. by left.
Qed.

(** Adding a key to a dictionary without duplicate keys. *)
Lemma counter_add_map (g : K → nat) k (l : list K) :
  NoDup l →
  counter_add k (map (λ k', (k', g k')) l) =
    if decide (k ∈ l)
    then map (λ k', (k', if decide (k = k') then S (g k') else g k')) l
    else map (λ k', (k', g k')) l ++ [(k, 1%nat)].
Proof.
  induction 1 as [|a l Ha Hl IH].
  - destruct (decide (k ∈ [])) as [Hin|_]; [|done].
    by apply elem_of_nil in Hin.
  - cbn [map counter_add]. destruct (decide (k = a)) as [->|Hne].
    + destruct (decide (a ∈ a :: l)) as [_|Hin']; [|exfalso; apply Hin'; left].
      f_equal. apply map_ext_in. intros k' Hk'.
      rewrite decide_False; [done|].
      intros ->. apply Ha. by apply list_elem_of_In.
    + rewrite IH.
      destruct (decide (k ∈ l)) as [Hin|Hin];
        destruct (decide (k ∈ a :: l)) as [Hin'|Hin']; try done.
      * exfalso. apply Hin'. by right.
      * apply elem_of_cons in Hin' as [?|?]; done.
Qed.

(** The dictionary behind [Counter(keys)]: the distinct keys in the
    order of their first occurrence, each with how often it occurs. *)
Lemma Counter_first_seen keys :
  Counter keys = map (λ k, (k, occurrences k keys)) (first_seen keys).
Proof.
  unfold Counter.
  induction keys as [|k keys IH] using rev_ind; [done|].
  rewrite fold_left_app. simpl. rewrite IH.
  rewrite counter_add_map by apply first_seen_NoDup.
  rewrite first_seen_snoc.
  destruct (decide (k ∈ first_seen keys)) as [Hin|Hin];
    destruct (decide (k ∈ keys)) as [Hin'|Hin'];
    try (by rewrite first_seen_elem_of in Hin).
  - apply map_ext. intros k'. by rewrite occurrences_snoc.
  - rewrite map_app. cbn [map]. f_equal.
    + apply map_ext_in. intros k' Hk'.
      rewrite occurrences_snoc, decide_False; [done|].
      intros ->. apply Hin. by apply list_elem_of_In.
    + rewrite occurrences_snoc, decide_True by done.
      by rewrite occurrences_0.
Qed.

(** *** The stable descending sort *)

Lemma insert_desc_Permutation x c : insert_desc x c ≡ₚ x :: c.
Proof.
  induction c as [|y c IH]; simpl; [done|].
  case_decide; [|done]. rewrite IH. apply Permutation_swap.
Qed.

Lemma sorted_desc_Permutation c : sorted_desc c ≡ₚ c.
Proof.
  induction c as [|x c IH]; simpl; [done|].
  by rewrite insert_desc_Permutation, IH.
Qed.

Section stable.
(** [before x y]: in the dictionary, [x] comes before [y]. *)
Variable before : K * nat → K * nat → Prop.

Local Abbreviation above :=
  (λ x y : K * nat, (y.2 < x.2)%nat ∨ (x.2 = y.2 ∧ before x y)).

Lemma insert_desc_sorted x c :
  Forall (before x) c →
  StronglySorted above c →
  StronglySorted above (insert_desc x c).
Proof.
  intros Hx Hc. induction Hc as [|y c Hc IH Hy]; simpl.
  - repeat constructor.
  - apply Forall_cons in Hx as [Hxy Hx].
    case_decide as Hlt.
    + constructor; [by apply IH|].
      rewrite insert_desc_Permutation. constructor; [by left|done].
    + constructor; [by constructor|].
      assert (above x y) as Habove.
      { destruct (decide (x.2 = y.2)); [by right|left; lia]. }
      constructor; [done|].
      rewrite Forall_forall in Hy, Hx |- *. intros z Hz.
      destruct (Hy z Hz) as [?|[? _]].
      * left. lia.
      * destruct (decide (x.2 = z.2)); [right; auto|left; lia].
Qed.

Lemma sorted_desc_sorted c :
  StronglySorted before c → StronglySorted above (sorted_desc c).
Proof.
  induction 1 as [|x c Hc IH Hx]; simpl; [constructor|].
  apply insert_desc_sorted; [|done].
  by rewrite sorted_desc_Permutation.
Qed.
End stable.

Lemma StronglySorted_sublist {A} (R : A → A → Prop) (l1 l2 : list A) :
  l1 `sublist_of` l2 → StronglySorted R l2 → StronglySorted R l1.
Proof.
  induction 1 as [|x l1 l2 Hs IH|x l1 l2 Hs IH]; intros Hl2.
  - constructor.
  - apply StronglySorted_inv in Hl2 as [Hl2 Hx].
    constructor; [auto|].
    rewrite Forall_forall in Hx |- *. intros y Hy.
    apply Hx. by eapply elem_of_sublist.
  - apply StronglySorted_inv in Hl2 as [Hl2 _]. auto.
Qed.

(** *** The order of first occurrences *)

Lemma first_index_first_seen keys :
  StronglySorted (λ k1 k2, (first_index k1 keys < first_index k2 keys)%nat)
    (first_seen keys).
Proof.
  induction keys as [|a keys IH]; simpl; [constructor|].
  assert (∀ k, k ∈ filter (λ k', k' ≠ a) (first_seen keys) →
    (if decide (k = a) then 0%nat else S (first_index k keys))
      = S (first_index k keys)) as Hne.
  { intros k [Hk _]%list_elem_of_filter. by rewrite decide_False. }
  constructor.
  - apply (StronglySorted_sublist _ _ _ (sublist_filter (λ k', k' ≠ a) _)) in IH.
    induction IH as [|k l Hl IHl Hk]; [constructor|].
    constructor.
    + apply IHl. intros k' Hk'. apply Hne. by right.
    + rewrite Forall_forall in Hk |- *. intros k' Hk'.
      rewrite !Hne; [|by right|by left].
      specialize (Hk k' Hk'). lia.
  - rewrite Forall_forall. intros k Hk.
    rewrite decide_True by done. rewrite Hne by done. lia.
Qed.

(** *** The result of [most_common] *)

Lemma sorted_desc_Counter_ranked keys :
  ranked keys (sorted_desc (Counter keys)).
Proof.
  split.
  - apply (sorted_desc_sorted
             (λ x y, (first_index x.1 keys < first_index y.1 keys)%nat)).
    rewrite Counter_first_seen.
    pose proof (first_index_first_seen keys) as Hs.
    induction Hs as [|k l Hl IHl Hk]; simpl; [constructor|].
    constructor; [done|]. by rewrite Forall_fmap.
  - rewrite sorted_desc_Permutation, Counter_first_seen.
    rewrite Forall_fmap, Forall_forall. intros k Hk. simpl.
    by rewrite first_seen_elem_of in Hk.
Qed.

Lemma ranked_take keys table (n : nat) :
  ranked keys table → ranked keys (take n table).
Proof.
  intros [Hs Hc]. split.
  - eapply StronglySorted_sublist; [apply sublist_take|done].
  - by apply Forall_take.
Qed.

Lemma most_common_take (n : Z) c :
  most_common n c = take (Z.to_nat n) (most_common_all c).
Proof.
  unfold most_common, most_common_all. case_decide as Hn; [|done].
  replace (Z.to_nat n) with 0%nat by lia. done.
Qed.

Lemma most_common_Counter_ranked (n : Z) keys :
  ranked keys (most_common n (Counter keys)).
Proof.
  rewrite most_common_take. apply ranked_take, sorted_desc_Counter_ranked.
Qed.

Lemma occurrences_NoDup k (l : list K) :
  NoDup l → k ∈ l → occurrences k l = 1%nat.
Proof.
  induction 1 as [|a l Ha Hl IH]; [by intros ?%elem_of_nil|].
  rewrite occurrences_cons. intros [->|Hin]%elem_of_cons.
  - rewrite decide_True by done. by rewrite occurrences_0.
  - rewrite decide_False; [auto|]. by intros ->.
Qed.

Lemma occurrences_Permutation k (l1 l2 : list K) :
  l1 ≡ₚ l2 → occurrences k l1 = occurrences k l2.
Proof. unfold occurrences. by intros ->. Qed.

(** With a limit of at least the number of distinct keys nothing is
    cut off. *)
Lemma most_common_Counter_complete (n : Z) keys :
  Z.of_nat (length (remove_dups keys)) ≤ n →
  each_key_once keys (most_common n (Counter keys)).
Proof.
  intros Hn k Hk.
  assert (length (first_seen keys) = length (remove_dups keys)) as Hlen.
  { apply Permutation_length, NoDup_Permutation.
    - apply first_seen_NoDup.
    - apply NoDup_remove_dups.
    - intros x. by rewrite first_seen_elem_of, elem_of_remove_dups. }
  rewrite most_common_take, firstn_all2.
  2:{ unfold most_common_all.
      rewrite sorted_desc_Permutation, Counter_first_seen, length_map. lia. }
  unfold most_common_all.
  erewrite occurrences_Permutation;
    [|by rewrite sorted_desc_Permutation].
  rewrite Counter_first_seen.
  rewrite <- list_fmap_compose.
  rewrite (list_fmap_ext _ id) by done.
  rewrite list_fmap_id.
  apply occurrences_NoDup; [apply first_seen_NoDup|].
  by apply first_seen_elem_of.
Qed.
End counter_facts.

(** ** The four frequency tables *)

(** C3: each of the four tables lists its rows by descending count, rows
    of equal count in the order in which their keys occur first in the
    event sequence; every row carries the number of occurrences of its
    key. *)
Theorem tables_ranked_by_count_then_first_seen
    (events : list Event) (top_n : Z) :
  ∃ r, aggregate events top_n = Some r
    ∧ ranked (type_keys events) (r_type_table r)
    ∧ ranked (id_keys events) (r_id_table r)
    ∧ ranked (unknown_id_keys events) (r_unknown_top_level_table r)
    ∧ ranked (unknown_vst_keys events) (r_unknown_vst_table r).
Proof.
  destruct (aggregate_Some events top_n)
    as (r & Hr & _ & _ & _ & _ & _ & _ & Ht & Hi & Hu & Hv).
  exists r. rewrite Ht, Hi, Hu, Hv.
  split_and!; [done|apply most_common_Counter_ranked..].
Qed.

(** C4: a table shown is the first [top_n] rows of the whole ranking
    (no row for a limit below one); with a limit of at least the number
    of distinct keys every key has exactly one row; and the totals and
    percentages are the same for every limit. *)
Theorem truncation_keeps_order_and_counts
    (events : list Event) (top_n : Z) :
  ∃ r, aggregate events top_n = Some r
    ∧ top_rows top_n (type_keys events) (r_type_table r)
    ∧ top_rows top_n (id_keys events) (r_id_table r)
    ∧ top_rows top_n (unknown_id_keys events) (r_unknown_top_level_table r)
    ∧ top_rows top_n (unknown_vst_keys events) (r_unknown_vst_table r)
    ∧ ∀ top_n', ∃ r', aggregate events top_n' = Some r'
        ∧ r_total_events r' = r_total_events r
        ∧ r_parsed_events r' = r_parsed_events r
        ∧ r_unknown_top_level r' = r_unknown_top_level r
        ∧ r_parsed_pct r' = r_parsed_pct r
        ∧ r_unknown_pct r' = r_unknown_pct r.
Proof.
  destruct (aggregate_Some events top_n)
    as (r & Hr & Ht & Hu & Hp & _ & Hpp & Hup & Htt & Hit & Hut & Hvt).
  exists r. rewrite Htt, Hit, Hut, Hvt.
  split_and!; [done|..].
  1-4: split; [apply most_common_take|apply most_common_Counter_complete].
  intros top_n'.
  destruct (aggregate_Some events top_n')
    as (r' & Hr' & Ht' & Hu' & Hp' & _ & Hpp' & Hup' & _).
  exists r'. rewrite Ht, Hu, Hp, Hup, Hpp, Ht', Hu', Hp', Hup', Hpp'. done.
Qed.

(** ** Unknown sub-events of plugin events *)

Lemma scan_sub_events_omap acc subs :
  scan_sub_events acc subs = acc ++ omap raw_entry subs.
Proof.
  unfold scan_sub_events. revert acc.
  induction subs as [|s subs IH]; intros acc; simpl.
  - by rewrite app_nil_r.
  - rewrite IH. unfold raw_entry at 2.
    destruct (sub_id s); simpl; [by rewrite <- app_assoc|done].
Qed.

Lemma unknown_vst_subevents_flat_map events :
  unknown_vst_subevents events = flat_map nested_contribution events.
Proof.
  unfold unknown_vst_subevents.
  change (flat_map nested_contribution events)
    with ([] ++ flat_map nested_contribution events).
  generalize (@nil (Z * nat)) as acc.
  induction events as [|e events IH]; intros acc; simpl.
  - by rewrite app_nil_r.
  - rewrite IH. unfold nested_contribution at 2.
    destruct (ev_class e); rewrite ?scan_sub_events_omap, ?app_nil_l;
      by rewrite <- ?app_assoc.
Qed.

Lemma nested_contribution_other event :
  is_VSTPluginEvent event = false → nested_contribution event = [].
Proof.
  unfold is_VSTPluginEvent, nested_contribution.
  by destruct (ev_class event).
Qed.

Lemma flat_map_nil {A B} (f : A → list B) (l : list A) :
  Forall (λ x, f x = []) l → flat_map f l = [].
Proof. induction 1 as [|x l Hx _ IH]; simpl; [done|]. by rewrite Hx, IH. Qed.

(** C5: with one plugin event in the sequence, the tally of unknown
    sub-events is the list of its entries whose identifier is a raw
    number, in their order: an entry is counted exactly when its
    identifier is raw.  An event of another class adds nothing, and
    neither does a plugin event without entries. *)
Theorem nested_entries_counted_iff_raw
    (before after : list Event) (plugin : Event) (subs : list SubEvent) :
  ev_class plugin = VSTPluginEvent subs →
  Forall (λ e, is_VSTPluginEvent e = false) (before ++ after) →
  let events := before ++ plugin :: after in
  unknown_vst_subevents events = omap raw_entry subs
  ∧ length (unknown_vst_subevents events) =
      length (filter (λ s, is_raw_int (sub_id s) = true) subs)
  ∧ (∀ n, occurrences n (unknown_vst_keys events) =
      length (filter (λ s, sub_id s = RawInt n) subs))
  ∧ (∀ n c, (n, c) ∈ unknown_vst_counts events →
      c = length (filter (λ s, sub_id s = RawInt n) subs))
  ∧ (∀ l1 l2 other, is_VSTPluginEvent other = false →
      unknown_vst_subevents (l1 ++ other :: l2) =
        unknown_vst_subevents (l1 ++ l2))
  ∧ (∀ l1 l2 empty, ev_class empty = VSTPluginEvent [] →
      unknown_vst_subevents (l1 ++ empty :: l2) =
        unknown_vst_subevents (l1 ++ l2)).
Proof.
  intros Hplugin Hothers events.
  apply Forall_app in Hothers as [Hb Ha].
  assert (unknown_vst_subevents events = omap raw_entry subs) as Heq.
  { unfold events. rewrite unknown_vst_subevents_flat_map.
    rewrite flat_map_app. simpl.
    rewrite !flat_map_nil, app_nil_r.
    - unfold nested_contribution. by rewrite Hplugin.
    - eapply Forall_impl; [exact Ha|]. apply nested_contribution_other.
    - eapply Forall_impl; [exact Hb|]. apply nested_contribution_other. }
  assert (∀ n, occurrences n (unknown_vst_keys events) =
      length (filter (λ s, sub_id s = RawInt n) subs)) as Hocc.
  { intros n. unfold unknown_vst_keys. rewrite Heq. clear.
    unfold occurrences.
    induction subs as [|s subs IH]; [done|].
    rewrite (filter_cons (λ s, sub_id s = RawInt n)).
    cbn [omap list_omap]. unfold raw_entry at 1.
    destruct (sub_id s) as [m|name m]; cbn [map fst].
    - rewrite filter_cons.
      destruct (decide (m = n)) as [->|Hne].
      + rewrite decide_True by done. cbn [length]. by rewrite IH.
      + rewrite decide_False by congruence. done.
    - rewrite decide_False by done. done. }
  split_and!; try done.
  - rewrite Heq. clear.
    induction subs as [|s subs IH]; [done|].
    rewrite filter_cons. cbn [omap list_omap]. unfold raw_entry at 1.
    destruct (sub_id s); cbn [is_raw_int].
    + rewrite decide_True by done. cbn [length]. by rewrite IH.
    + rewrite decide_False by done. done.
  - intros n c Hin. unfold unknown_vst_counts in Hin.
    rewrite Counter_first_seen in Hin.
    apply list_elem_of_fmap in Hin as (k & [= -> ->] & _). apply Hocc.
  - intros l1 l2 other Hother.
    rewrite !unknown_vst_subevents_flat_map, !flat_map_app. simpl.
    by rewrite nested_contribution_other.
  - intros l1 l2 empty Hempty.
    rewrite !unknown_vst_subevents_flat_map, !flat_map_app. simpl.
    unfold nested_contribution at 2. by rewrite Hempty.
Qed.

(** ** Strings *)

Lemma string_app_assoc (a b c : string) : (a +:+ b) +:+ c = a +:+ (b +:+ c).
Proof. induction a as [|x a IH]; simpl; [done|]. by rewrite IH. Qed.

Lemma specials_app a b : specials (a +:+ b) = specials a ++ specials b.
Proof.
  induction a as [|c a IH]; simpl; [done|].
  destruct (is_delimiter c); simpl; by rewrite IH.
Qed.

Lemma prefix_app p s t :
  String.prefix p s = true → String.prefix p (s +:+ t) = true.
Proof.
  revert s. induction p as [|c p IH]; intros [|d s]; simpl; try done.
  - by destruct t.
  - destruct (ascii_dec c d); [apply IH|done].
Qed.

Lemma is_reference_tail_app s t :
  is_reference_tail s = true → is_reference_tail (s +:+ t) = true.
Proof.
  unfold is_reference_tail. rewrite !orb_true_iff.
  intros [[[[?|?]|?]|?]|?]; auto 10 using prefix_app.
Qed.

Lemma amp_escaped_app a b :
  amp_escaped a = true → amp_escaped b = true → amp_escaped (a +:+ b) = true.
Proof.
  intros Ha Hb. induction a as [|c a IH]; simpl in *; [done|].
  apply andb_true_iff in Ha as [Hc Ha]. apply andb_true_iff. split; [|auto].
  destruct (c =? "&")%char; [|done]. by apply is_reference_tail_app.
Qed.

Lemma plain_app a b : plain a = true → plain b = true → plain (a +:+ b) = true.
Proof.
  intros Ha Hb. induction a as [|c a IH]; simpl in *; [done|].
  apply andb_true_iff in Ha as [Hc Ha]. rewrite Hc. simpl. auto.
Qed.

Lemma plain_specials s : plain s = true → specials s = [].
Proof.
  induction s as [|c s IH]; simpl; [done|].
  intros [[Hc _]%andb_true_iff Hs]%andb_true_iff.
  apply negb_true_iff in Hc. rewrite Hc. auto.
Qed.

Lemma plain_amp_escaped s : plain s = true → amp_escaped s = true.
Proof.
  induction s as [|c s IH]; simpl; [done|].
  intros [[_ Hc]%andb_true_iff Hs]%andb_true_iff.
  apply negb_true_iff in Hc. rewrite Hc. simpl. auto.
Qed.

(** *** Numbers are plain *)

Lemma plain_pretty_N_go (x : N) (s : string) :
  plain s = true → plain (pretty_N_go x s) = true.
Proof.
  revert s. induction (N.lt_wf_0 x) as [x _ IH]; intros s Hs.
  destruct (decide (x = 0)%N) as [->|Hx]; [done|].
  rewrite pretty_N_go_step by lia. apply IH.
  - apply N.div_lt; lia.
  - simpl. rewrite Hs. unfold pretty_N_char.
    by repeat case_match.
Qed.

Lemma plain_pretty_N (x : N) : plain (pretty x) = true.
Proof.
  unfold pretty, pretty_N. case_decide; [done|].
  by apply plain_pretty_N_go.
Qed.

Lemma plain_pretty_nat (x : nat) : plain (pretty x) = true.
Proof. apply plain_pretty_N. Qed.

Lemma plain_pretty_Z (x : Z) : plain (pretty x) = true.
Proof.
  destruct x as [|p|p]; [done|apply plain_pretty_N|].
  change (pretty (Z.neg p)) with ("-" +:+ pretty (N.pos p)).
  apply plain_app; [done|apply plain_pretty_N].
Qed.

Lemma plain_format_2f (x : Q) : plain (format_2f x) = true.
Proof.
  unfold format_2f, two_digits.
  repeat first
    [ apply plain_pretty_Z
    | apply plain_app
    | case_decide
    | reflexivity ].
Qed.

(** *** [html.escape] *)

Lemma html_escape_cons c s :
  html_escape (String c s) = escape_char c +:+ html_escape s.
Proof.
  unfold html_escape, escape_char. simpl.
  destruct (c =? "&")%char eqn:H1; [done|]. simpl.
  destruct (c =? "<")%char eqn:H2; [done|]. simpl.
  destruct (c =? ">")%char eqn:H3; [done|]. simpl.
  destruct (c =? "034")%char eqn:H4; [done|]. simpl.
  destruct (c =? "'")%char eqn:H5; done.
Qed.

Lemma html_escape_nil : html_escape EmptyString = EmptyString.
Proof. done. Qed.

Lemma specials_html_escape s : specials (html_escape s) = [].
Proof.
  induction s as [|c s IH]; [done|].
  rewrite html_escape_cons, specials_app, IH, app_nil_r.
  unfold escape_char.
  destruct (c =? "&")%char eqn:H1; [done|].
  destruct (c =? "<")%char eqn:H2; [done|].
  destruct (c =? ">")%char eqn:H3; [done|].
  destruct (c =? "034")%char eqn:H4; [done|].
  destruct (c =? "'")%char eqn:H5; [done|].
  simpl. unfold is_delimiter. by rewrite H2, H3, H4, H5.
Qed.

Lemma amp_escaped_html_escape s : amp_escaped (html_escape s) = true.
Proof.
  induction s as [|c s IH]; [done|].
  rewrite html_escape_cons. apply amp_escaped_app; [|done].
  unfold escape_char.
  destruct (c =? "&")%char eqn:H1; [done|].
  destruct (c =? "<")%char eqn:H2; [done|].
  destruct (c =? ">")%char eqn:H3; [done|].
  destruct (c =? "034")%char eqn:H4; [done|].
  destruct (c =? "'")%char eqn:H5; [done|].
  simpl. by rewrite H1.
Qed.

(** *** Rows *)

Lemma rows_or_map {A} (placeholder : string) (f : A → string) (l : list A) :
  (∀ x, f x ≠ EmptyString) →
  rows_or placeholder (map f l) =
    match l with [] => placeholder | _ :: _ => str_join nl (map f l) end.
Proof.
  intros Hf. destruct l as [|x l]; [done|].
  unfold rows_or. cbn [map str_join].
  specialize (Hf x). destruct (f x) as [|c s]; [done|].
  by destruct (map f l).
Qed.

Lemma rows_or_nonempty (placeholder : string) (rows : list string) :
  placeholder ≠ EmptyString → rows_or placeholder rows ≠ EmptyString.
Proof.
  intros Hp. unfold rows_or. by destruct (str_join nl rows).
Qed.

Lemma type_row_nonempty row : type_row row ≠ EmptyString.
Proof. done. Qed.

Lemma id_row_nonempty row : id_row row ≠ EmptyString.
Proof. by destruct row as [[[? ?] ?] ?]. Qed.

Lemma count_row_nonempty row : count_row row ≠ EmptyString.
Proof. done. Qed.

Lemma specials_join {A} (f g : A → string) (l : list A) :
  (∀ x, specials (f x) = specials (g x)) →
  specials (str_join nl (map f l)) = specials (str_join nl (map g l)).
Proof.
  intros Hfg. induction l as [|x l IH]; [done|].
  cbn [map str_join]. cbn [map str_join] in IH.
  destruct l as [|y l]; [apply Hfg|].
  cbn [map]. rewrite !specials_app, Hfg. cbn [map] in IH. by rewrite IH.
Qed.

Lemma amp_escaped_join {A} (f : A → string) (l : list A) :
  (∀ x, amp_escaped (f x) = true) →
  amp_escaped (str_join nl (map f l)) = true.
Proof.
  intros Hf. induction l as [|x l IH]; [done|].
  cbn [map str_join]. cbn [map str_join] in IH.
  destruct l as [|y l]; [apply Hf|].
  cbn [map]. cbn [map] in IH.
  repeat (apply amp_escaped_app; [done|]). exact IH.
Qed.

Ltac escaped_pieces :=
  repeat first
    [ apply amp_escaped_html_escape
    | apply plain_amp_escaped, plain_pretty_Z
    | apply plain_amp_escaped, plain_pretty_nat
    | apply plain_amp_escaped, plain_format_2f
    | apply amp_escaped_app
    | reflexivity ].

Lemma amp_escaped_type_row row : amp_escaped (type_row row) = true.
Proof. unfold type_row. escaped_pieces. Qed.

Lemma amp_escaped_id_row row : amp_escaped (id_row row) = true.
Proof. destruct row as [[[? ?] ?] ?]. unfold id_row. escaped_pieces. Qed.

Lemma amp_escaped_count_row row : amp_escaped (count_row row) = true.
Proof. unfold count_row. escaped_pieces. Qed.

Lemma amp_escaped_rows_or {A} placeholder (f : A → string) (l : list A) :
  amp_escaped placeholder = true →
  (∀ x, f x ≠ EmptyString) →
  (∀ x, amp_escaped (f x) = true) →
  amp_escaped (rows_or placeholder (map f l)) = true.
Proof.
  intros Hp Hne Hf. rewrite rows_or_map by done.
  destruct l; [done|]. by apply amp_escaped_join.
Qed.

Ltac blank_pieces :=
  rewrite ?specials_app, ?specials_html_escape,
    ?(plain_specials _ (plain_pretty_Z _)),
    ?(plain_specials _ (plain_pretty_nat _)).

Lemma specials_type_rows r : specials (type_rows r) = specials (type_rows (blank_texts r)).
Proof.
  unfold type_rows. cbn [blank_texts r_type_table].
  rewrite !rows_or_map by apply type_row_nonempty.
  rewrite map_map. destruct (r_type_table r) as [|row l]; [done|].
  apply (specials_join type_row (λ x, type_row (EmptyString, x.2)) (row :: l)).
  intros x. unfold type_row. cbn [fst snd]. by blank_pieces.
Qed.

Lemma specials_id_rows r : specials (id_rows r) = specials (id_rows (blank_texts r)).
Proof.
  unfold id_rows. cbn [blank_texts r_id_table].
  rewrite !rows_or_map by apply id_row_nonempty.
  rewrite map_map. destruct (r_id_table r) as [|row l]; [done|].
  apply (specials_join id_row
    (λ x, id_row ((x.1.1.1, EmptyString, EmptyString), x.2)) (row :: l)).
  intros [[[? ?] ?] ?]. unfold id_row. cbn [fst snd]. by blank_pieces.
Qed.

(** *** Finding a piece of the document *)

Lemma starts_with_here a d : starts_with a (a +:+ d).
Proof. by exists d. Qed.

Lemma starts_with_step a n d : starts_with n d → starts_with (a +:+ n) (a +:+ d).
Proof. intros [t ->]. exists t. by rewrite string_app_assoc. Qed.

Lemma contains_starts n d : starts_with n d → contains n d.
Proof. intros [t ->]. by exists EmptyString, t. Qed.

Lemma contains_skip a n d : contains n d → contains n (a +:+ d).
Proof. intros (b & t & ->). exists (a +:+ b), t. by rewrite string_app_assoc. Qed.

Ltac match_pieces :=
  lazymatch goal with
  | |- starts_with (?a +:+ _) (?a +:+ _) => apply starts_with_step; match_pieces
  | |- starts_with ?a (?a +:+ _) => apply starts_with_here
  end.

Ltac find_piece :=
  lazymatch goal with
  | |- contains (?a +:+ _) (?a +:+ _) =>
      first [ apply contains_starts; match_pieces
            | apply contains_skip; find_piece ]
  | |- contains _ (_ +:+ _) => apply contains_skip; find_piece
  end.

Lemma render_report_tables flp_path top_n r :
  let document := render_report flp_path top_n r in
  table_in type_table_head (type_rows r) document
  ∧ table_in id_table_head (id_rows r) document
  ∧ table_in unknown_top_level_table_head (unknown_top_level_rows r) document
  ∧ table_in unknown_vst_table_head (unknown_vst_rows r) document.
Proof.
  unfold table_in, render_report, type_table_head, id_table_head,
    unknown_top_level_table_head, unknown_vst_table_head.
  split_and!; find_piece.
Qed.

Lemma render_report_cards flp_path top_n r :
  let document := render_report flp_path top_n r in
  card_in "    <div>Unknown top-level events</div>"
    (unknown_top_level_class r)
    (pretty (length (r_unknown_top_level r))) document
  ∧ card_in "    <div>Unknown VST sub-events</div>"
    (unknown_vst_class r)
    (pretty (length (r_unknown_vst_subevents r))) document.
Proof.
  unfold card_in, render_report. split; find_piece.
Qed.

(** ** The rendered document *)

Lemma build_report_Some flp_path events top_n :
  ∃ r, aggregate events top_n = Some r
    ∧ build_report flp_path events top_n
        = Some (render_report flp_path top_n r).
Proof.
  destruct (aggregate_Some events top_n) as (r & Hr & _).
  exists r. split; [done|]. unfold build_report. by rewrite Hr.
Qed.

Lemma specials_render_report flp_path top_n r :
  specials (render_report flp_path top_n r)
    = specials (render_report EmptyString top_n (blank_texts r)).
Proof.
  unfold render_report.
  rewrite !specials_app, !specials_html_escape.
  rewrite (specials_type_rows r), (specials_id_rows r).
  reflexivity.
Qed.

Ltac escaped_document :=
  lazymatch goal with
  | |- amp_escaped (_ +:+ _) = true =>
      apply amp_escaped_app; [escaped_document|escaped_document]
  | |- amp_escaped (html_escape _) = true => apply amp_escaped_html_escape
  | |- amp_escaped (format_2f _) = true =>
      apply plain_amp_escaped, plain_format_2f
  | |- amp_escaped (pretty _) = true =>
      apply plain_amp_escaped;
      first [apply plain_pretty_Z | apply plain_pretty_nat]
  | |- _ => first [assumption | vm_compute; reflexivity]
  end.

Lemma amp_escaped_render_report flp_path top_n r :
  amp_escaped (render_report flp_path top_n r) = true.
Proof.
  assert (amp_escaped (type_rows r) = true) as Ht.
  { apply amp_escaped_rows_or;
      auto using type_row_nonempty, amp_escaped_type_row. }
  assert (amp_escaped (id_rows r) = true) as Hi.
  { apply amp_escaped_rows_or;
      auto using id_row_nonempty, amp_escaped_id_row. }
  assert (amp_escaped (unknown_top_level_rows r) = true) as Hu.
  { apply amp_escaped_rows_or;
      auto using count_row_nonempty, amp_escaped_count_row. }
  assert (amp_escaped (unknown_vst_rows r) = true) as Hv.
  { apply amp_escaped_rows_or;
      auto using count_row_nonempty, amp_escaped_count_row. }
  assert (amp_escaped (unknown_top_level_class r) = true) as Hc1.
  { unfold unknown_top_level_class. by destruct (r_unknown_top_level r). }
  assert (amp_escaped (unknown_vst_class r) = true) as Hc2.
  { unfold unknown_vst_class. by destruct (r_unknown_vst_subevents r). }
  unfold render_report. escaped_document.
Qed.

(** C6: the file path, the names and the type names reach the document
    through [html.escape] only.  An escaped text has no delimiter
    (<, >, double or single quote) and each of its ampersands starts a
    character reference.  So the delimiters of the document are those of
    the same report with an empty path and empty names, and every
    ampersand of the document starts a character reference: no character
    of these texts is read as markup. *)
Theorem texts_enter_document_escaped
    (flp_path : string) (events : list Event) (top_n : Z) :
  ∃ r document,
    aggregate events top_n = Some r
    ∧ build_report flp_path events top_n = Some document
    ∧ starts_with (page_head +:+ html_escape flp_path +:+ "</p>") document
    ∧ specials document
        = specials (render_report EmptyString top_n (blank_texts r))
    ∧ amp_escaped document = true
    ∧ ∀ text, specials (html_escape text) = []
        ∧ amp_escaped (html_escape text) = true.
Proof.
  destruct (build_report_Some flp_path events top_n) as (r & Hr & Hdoc).
  exists r, (render_report flp_path top_n r).
  split; [exact Hr|]. split; [exact Hdoc|].
  split; [unfold render_report; match_pieces|].
  split; [apply specials_render_report|].
  split; [apply amp_escaped_render_report|].
  intros text. split.
  - apply specials_html_escape.
  - apply amp_escaped_html_escape.
Qed.

Lemma most_common_nil {K} `{EqDecision K} (n : Z) :
  most_common n (@nil (K * nat)) = [].
Proof. unfold most_common. case_decide; [done|]. by destruct (Z.to_nat n). Qed.

Lemma most_common_nonpositive {K} `{EqDecision K} (n : Z) (c : list (K * nat)) :
  n ≤ 0 → most_common n c = [].
Proof. intros Hn. unfold most_common. by rewrite decide_True. Qed.

#[local] Opaque render_report.
(** C7: for the empty event sequence each of the four tables of the
    document has the one placeholder row, "No events" for the two tables
    of all events and "None" for the two tables of unknown identifiers;
    in general a table without rows gets its placeholder, and no table
    body is ever empty. *)
Theorem empty_tables_show_placeholder (flp_path : string) (top_n : Z) :
  (∃ r document,
    aggregate [] top_n = Some r
    ∧ build_report flp_path [] top_n = Some document
    ∧ table_in type_table_head no_events_2 document
    ∧ table_in id_table_head no_events_4 document
    ∧ table_in unknown_top_level_table_head none_2 document
    ∧ table_in unknown_vst_table_head none_2 document)
  ∧ ∀ r,
    (r_type_table r = [] → type_rows r = no_events_2)
    ∧ (r_id_table r = [] → id_rows r = no_events_4)
    ∧ (r_unknown_top_level_table r = [] → unknown_top_level_rows r = none_2)
    ∧ (r_unknown_vst_table r = [] → unknown_vst_rows r = none_2)
    ∧ type_rows r ≠ EmptyString
    ∧ id_rows r ≠ EmptyString
    ∧ unknown_top_level_rows r ≠ EmptyString
    ∧ unknown_vst_rows r ≠ EmptyString.
Proof.
  split.
  - destruct (build_report_Some flp_path [] top_n) as (r & Hr & Hdoc).
    destruct (aggregate_Some [] top_n)
      as (r' & Hr' & _ & _ & _ & _ & _ & _ & Ht & Hi & Hu & Hv).
    rewrite Hr in Hr'. injection Hr' as <-.
    exists r, (render_report flp_path top_n r).
    destruct (render_report_tables flp_path top_n r) as (H1 & H2 & H3 & H4).
    unfold type_rows in H1. unfold id_rows in H2.
    unfold unknown_top_level_rows in H3. unfold unknown_vst_rows in H4.
    rewrite Ht in H1. rewrite Hi in H2. rewrite Hu in H3. rewrite Hv in H4.
    change (event_type_counts []) with (@nil (string * nat)) in H1.
    change (top_level_id_counts [])
      with (@nil ((Z * string * string) * nat)) in H2.
    change (unknown_top_level_id_counts []) with (@nil (Z * nat)) in H3.
    change (unknown_vst_counts []) with (@nil (Z * nat)) in H4.
    rewrite most_common_nil in H1. rewrite most_common_nil in H2.
    rewrite most_common_nil in H3. rewrite most_common_nil in H4.
    split; [exact Hr|]. split; [exact Hdoc|].
    split; [exact H1|]. split; [exact H2|]. split; [exact H3|exact H4].
  - intros r.
    unfold type_rows, id_rows, unknown_top_level_rows, unknown_vst_rows.
    split_and!; try (by intros ->); by apply rows_or_nonempty.
Qed.
(** C8: the card of the unknown top-level events has the style [bad]
    exactly when there is such an event and [ok] otherwise; the card of
    the unknown sub-events has the different style [warn] exactly when
    there is such a sub-event and [ok] otherwise.  The numbers on the
    cards are those of the aggregation, whatever the style. *)
Theorem unknown_cards_styled_by_count
    (flp_path : string) (events : list Event) (top_n : Z) :
  ∃ r document,
    aggregate events top_n = Some r
    ∧ build_report flp_path events top_n = Some document
    ∧ card_in "    <div>Unknown top-level events</div>"
        (if decide (length (unknown_top_level events) = 0%nat)
         then "ok" else "bad")
        (pretty (length (unknown_top_level events))) document
    ∧ card_in "    <div>Unknown VST sub-events</div>"
        (if decide (length (unknown_vst_subevents events) = 0%nat)
         then "ok" else "warn")
        (pretty (length (unknown_vst_subevents events))) document
    ∧ "bad" ≠ "warn" ∧ "bad" ≠ "ok" ∧ "warn" ≠ "ok"
    ∧ r_total_events r = total_events events
    ∧ r_parsed_events r = parsed_events events
    ∧ _pct (parsed_events events) (total_events events)
        = Some (r_parsed_pct r).
Proof.
  destruct (build_report_Some flp_path events top_n) as (r & Hr & Hdoc).
  destruct (aggregate_Some events top_n)
    as (r' & Hr' & Ht & Hu & Hp & Hv & Hpp & _).
  rewrite Hr in Hr'. injection Hr' as <-.
  exists r, (render_report flp_path top_n r).
  destruct (render_report_cards flp_path top_n r) as (H1 & H2).
  unfold unknown_top_level_class in H1. unfold unknown_vst_class in H2.
  rewrite Hu in H1. rewrite Hv in H2.
  split; [exact Hr|]. split; [exact Hdoc|].
  split; [by destruct (unknown_top_level events)|].
  split; [by destruct (unknown_vst_subevents events)|].
  split_and!; [done..|].
  by rewrite _pct_Some, Hpp.
Qed.
(** C10: with a row limit of zero or less all four tables of the
    document have only their placeholder row, whatever the events, and
    the totals and the percentage are those of the whole event
    sequence. *)
Theorem nonpositive_limit_shows_placeholders
    (flp_path : string) (events : list Event) (top_n : Z) :
  top_n ≤ 0 →
  ∃ r document,
    aggregate events top_n = Some r
    ∧ build_report flp_path events top_n = Some document
    ∧ table_in type_table_head no_events_2 document
    ∧ table_in id_table_head no_events_4 document
    ∧ table_in unknown_top_level_table_head none_2 document
    ∧ table_in unknown_vst_table_head none_2 document
    ∧ r_total_events r = Z.of_nat (length events)
    ∧ r_unknown_top_level r = unknown_top_level events
    ∧ r_parsed_events r = parsed_events events
    ∧ r_unknown_vst_subevents r = unknown_vst_subevents events
    ∧ _pct (parsed_events events) (total_events events)
        = Some (r_parsed_pct r)
    ∧ r_unknown_pct r =
        (if decide (total_events events = 0) then 0%Q
         else (100 - r_parsed_pct r)%Q).
Proof.
  intros Hn.
  destruct (build_report_Some flp_path events top_n) as (r & Hr & Hdoc).
  destruct (aggregate_Some events top_n)
    as (r' & Hr' & Htot & Hunk & Hp & Hvs & Hpp & Hup & Ht & Hi & Hu & Hv).
  rewrite Hr in Hr'. injection Hr' as <-.
  exists r, (render_report flp_path top_n r).
  destruct (render_report_tables flp_path top_n r) as (H1 & H2 & H3 & H4).
  unfold type_rows in H1. unfold id_rows in H2.
  unfold unknown_top_level_rows in H3. unfold unknown_vst_rows in H4.
  rewrite Ht in H1. rewrite Hi in H2. rewrite Hu in H3. rewrite Hv in H4.
  rewrite most_common_nonpositive in H1 by done.
  rewrite most_common_nonpositive in H2 by done.
  rewrite most_common_nonpositive in H3 by done.
  rewrite most_common_nonpositive in H4 by done.
  split; [exact Hr|]. split; [exact Hdoc|].
  split; [exact H1|]. split; [exact H2|]. split; [exact H3|].
  split; [exact H4|].
  split; [exact Htot|].
  split_and!; try done.
  by rewrite _pct_Some, Hpp.
Qed.

(** ** The program *)

#[local] Opaque build_report.



(** ** The theorems at the sample inputs *)

Lemma nested_entries_counted_iff_raw_witness :
  ev_class sample_plugin = VSTPluginEvent sample_subs
  ∧ Forall (λ e, is_VSTPluginEvent e = false) ([sample_known] ++ [sample_unknown])
  ∧ unknown_vst_subevents ([sample_known] ++ sample_plugin :: [sample_unknown])
      = omap raw_entry sample_subs.
Proof.
  split; [reflexivity|]. split; [repeat constructor|].
  exact (proj1 (nested_entries_counted_iff_raw
    [sample_known] [sample_unknown] sample_plugin sample_subs
    eq_refl ltac:(repeat constructor))).
Defined.

Lemma nonpositive_limit_shows_placeholders_witness :
  -1 ≤ 0
  ∧ ∃ r document,
      aggregate sample_events (-1) = Some r
      ∧ build_report "/tmp/song.flp" sample_events (-1) = Some document
      ∧ table_in type_table_head no_events_2 document.
Proof.
  split; [lia|].
  destruct (nonpositive_limit_shows_placeholders
    "/tmp/song.flp" sample_events (-1) ltac:(lia))
    as (r & document & Hr & Hdoc & Ht & _).
  exists r, document. split; [exact Hr|]. split; [exact Hdoc|exact Ht].
Defined.


(** * Further properties of the code *)

(** ** More on the tables *)

Section counter_totals.
Context {K : Type} `{EqDecision K}.
Implicit Types (k : K) (keys : list K) (c : list (K * nat)).

Lemma counter_add_sum k c : sum_list (counter_add k c).*2 = S (sum_list c.*2).
Proof.
  induction c as [|[k' n] c IH]; [done|].
  cbn [counter_add]. case_decide; cbn; [lia|].
  cbn in IH. rewrite IH. lia.
Qed.

Lemma Counter_sum keys : sum_list (Counter keys).*2 = length keys.
Proof.
  unfold Counter. induction keys as [|k keys IH] using rev_ind; [done|].
  rewrite fold_left_app, length_app. cbn [fold_left].
  rewrite counter_add_sum, IH. cbn. lia.
Qed.

Lemma sum_list_Permutation (l1 l2 : list nat) :
  l1 ≡ₚ l2 → sum_list l1 = sum_list l2.
Proof. induction 1; cbn; lia. Qed.

Lemma sum_list_take (n : nat) (l : list nat) :
  (sum_list (take n l) ≤ sum_list l)%nat.
Proof.
  revert n. induction l as [|x l IH]; intros [|n]; cbn; try lia.
  specialize (IH n). lia.
Qed.

Lemma sorted_desc_sum c : sum_list (sorted_desc c).*2 = sum_list c.*2.
Proof.
  apply sum_list_Permutation, fmap_Permutation, sorted_desc_Permutation.
Qed.

Lemma most_common_sum_le (n : Z) keys :
  (sum_list (most_common n (Counter keys)).*2 ≤ length keys)%nat.
Proof.
  rewrite most_common_take. unfold most_common_all.
  rewrite fmap_take. etrans; [apply sum_list_take|].
  by rewrite sorted_desc_sum, Counter_sum.
Qed.

Lemma length_first_seen keys :
  length (first_seen keys) = length (remove_dups keys).
Proof.
  apply Permutation_length, NoDup_Permutation.
  - apply first_seen_NoDup.
  - apply NoDup_remove_dups.
  - intros x. by rewrite first_seen_elem_of, elem_of_remove_dups.
Qed.

Lemma length_remove_dups_le keys : (length (remove_dups keys) ≤ length keys)%nat.
Proof.
  induction keys as [|k keys IH]; [done|].
  cbn. case_decide; cbn; lia.
Qed.

Lemma length_sorted_desc_Counter keys :
  length (sorted_desc (Counter keys)) = length (remove_dups keys).
Proof.
  rewrite sorted_desc_Permutation, Counter_first_seen, length_map.
  apply length_first_seen.
Qed.

Lemma most_common_sum_eq (n : Z) keys :
  Z.of_nat (length (remove_dups keys)) ≤ n →
  sum_list (most_common n (Counter keys)).*2 = length keys.
Proof.
  intros Hn. rewrite most_common_take, take_ge.
  - unfold most_common_all. by rewrite sorted_desc_sum, Counter_sum.
  - unfold most_common_all. rewrite length_sorted_desc_Counter. lia.
Qed.

Lemma most_common_length (n : Z) keys :
  length (most_common n (Counter keys))
    = (Z.to_nat n `min` length (remove_dups keys))%nat.
Proof.
  rewrite most_common_take, length_take. unfold most_common_all.
  by rewrite length_sorted_desc_Counter.
Qed.

Lemma most_common_NoDup (n : Z) keys :
  NoDup (most_common n (Counter keys)).*1.
Proof.
  rewrite most_common_take, fmap_take. unfold most_common_all.
  eapply sublist_NoDup; [|apply sublist_take].
  rewrite sorted_desc_Permutation, Counter_first_seen.
  rewrite <- list_fmap_compose.
  rewrite (list_fmap_ext _ id) by done. rewrite list_fmap_id.
  apply first_seen_NoDup.
Qed.

(** The first row of a ranking has a count no key exceeds. *)
Lemma most_common_head (n : Z) keys row :
  head (most_common n (Counter keys)) = Some row →
  ∀ k, (occurrences k keys ≤ row.2)%nat.
Proof.
  rewrite most_common_take. unfold most_common_all.
  intros Hhead k.
  destruct (sorted_desc_Counter_ranked keys) as [Hs Hc].
  destruct (decide (k ∈ keys)) as [Hk|Hk]; [|rewrite occurrences_0 by done; lia].
  assert ((k, occurrences k keys) ∈ sorted_desc (Counter keys)) as Hin.
  { rewrite sorted_desc_Permutation, Counter_first_seen.
    apply list_elem_of_fmap. exists k. split; [done|].
    by apply first_seen_elem_of. }
  destruct (sorted_desc (Counter keys)) as [|x l] eqn:Hl.
  { by apply elem_of_nil in Hin. }
  destruct (Z.to_nat n) as [|m]; [done|].
  cbn in Hhead. injection Hhead as ->.
  apply elem_of_cons in Hin as [<-|Hin]; [cbn; lia|].
  apply StronglySorted_inv in Hs as [_ Hrow].
  rewrite Forall_forall in Hrow. specialize (Hrow _ Hin).
  destruct Hrow as [?|[? _]]; cbn in *; lia.
Qed.

Lemma most_common_head_Some (n : Z) keys :
  1 ≤ n → keys ≠ [] → is_Some (head (most_common n (Counter keys))).
Proof.
  intros Hn Hkeys. rewrite most_common_take. unfold most_common_all.
  pose proof (length_sorted_desc_Counter keys) as Hlen.
  destruct keys as [|k keys]; [done|].
  destruct (sorted_desc (Counter (k :: keys))) as [|x l].
  { cbn in Hlen. case_decide; cbn in Hlen; [|lia].
    destruct (remove_dups keys) eqn:Hd; [|cbn in Hlen; lia].
    assert (k ∈ remove_dups keys) as Hin by by apply elem_of_remove_dups.
    rewrite Hd in Hin. by apply elem_of_nil in Hin. }
  destruct (Z.to_nat n) as [|m] eqn:Hm; [lia|]. by eexists.
Qed.
End counter_totals.

(** Every table has at most [top_n] rows, one row for each distinct key
    up to that limit and no key in two rows. *)
Theorem tables_have_one_row_per_key_up_to_limit
    (events : list Event) (top_n : Z) :
  ∃ r, aggregate events top_n = Some r
    ∧ length (r_type_table r)
        = (Z.to_nat top_n `min` length (remove_dups (type_keys events)))%nat
    ∧ length (r_id_table r)
        = (Z.to_nat top_n `min` length (remove_dups (id_keys events)))%nat
    ∧ length (r_unknown_top_level_table r)
        = (Z.to_nat top_n
             `min` length (remove_dups (unknown_id_keys events)))%nat
    ∧ length (r_unknown_vst_table r)
        = (Z.to_nat top_n
             `min` length (remove_dups (unknown_vst_keys events)))%nat
    ∧ NoDup (r_type_table r).*1
    ∧ NoDup (r_id_table r).*1
    ∧ NoDup (r_unknown_top_level_table r).*1
    ∧ NoDup (r_unknown_vst_table r).*1.
Proof.
  destruct (aggregate_Some events top_n)
    as (r & Hr & _ & _ & _ & _ & _ & _ & Ht & Hi & Hu & Hv).
  exists r. rewrite Ht, Hi, Hu, Hv.
  split_and!;
    first [done | apply most_common_length | apply most_common_NoDup].
Qed.

(** The counts shown in a table never add up to more than what was
    counted: the events for the two tables of all events, the unknown
    events and the unknown sub-events for the other two. *)
Theorem table_counts_within_totals (events : list Event) (top_n : Z) :
  ∃ r, aggregate events top_n = Some r
    ∧ (sum_list (r_type_table r).*2 ≤ length events)%nat
    ∧ (sum_list (r_id_table r).*2 ≤ length events)%nat
    ∧ (sum_list (r_unknown_top_level_table r).*2
         ≤ length (r_unknown_top_level r))%nat
    ∧ (sum_list (r_unknown_vst_table r).*2
         ≤ length (r_unknown_vst_subevents r))%nat.
Proof.
  destruct (aggregate_Some events top_n)
    as (r & Hr & _ & Hunk & _ & Hvs & _ & _ & Ht & Hi & Hu & Hv).
  exists r. rewrite Ht, Hi, Hu, Hv, Hunk, Hvs.
  split; [done|].
  pose proof (most_common_sum_le top_n (type_keys events)) as H1.
  pose proof (most_common_sum_le top_n (id_keys events)) as H2.
  pose proof (most_common_sum_le top_n (unknown_id_keys events)) as H3.
  pose proof (most_common_sum_le top_n (unknown_vst_keys events)) as H4.
  unfold type_keys in H1. unfold id_keys in H2.
  unfold unknown_id_keys in H3. unfold unknown_vst_keys in H4.
  rewrite length_map in H1, H2, H3, H4.
  done.
Qed.

(** With a limit of at least the number of events nothing is cut off:
    the counts of the type table and of the identifier table add up to
    the number of events, those of the table of unknown identifiers to
    the number of unknown events. *)
Theorem full_tables_account_for_every_event
    (events : list Event) (top_n : Z) :
  Z.of_nat (length events) ≤ top_n →
  ∃ r, aggregate events top_n = Some r
    ∧ sum_list (r_type_table r).*2 = length events
    ∧ sum_list (r_id_table r).*2 = length events
    ∧ sum_list (r_unknown_top_level_table r).*2
        = length (r_unknown_top_level r)
    ∧ Z.of_nat (sum_list (r_unknown_top_level_table r).*2)
        + r_parsed_events r = r_total_events r.
Proof.
  intros Hn.
  destruct (aggregate_Some events top_n)
    as (r & Hr & Htot & Hunk & Hp & _ & _ & _ & Ht & Hi & Hu & _).
  exists r. rewrite Ht, Hi, Hu, Hunk, Hp, Htot.
  assert (length (unknown_top_level events) ≤ length events)%nat as Hle.
  { unfold unknown_top_level. apply length_filter. }
  assert (sum_list (most_common top_n (event_type_counts events)).*2
            = length events) as H1.
  { unfold event_type_counts. rewrite most_common_sum_eq.
    - unfold type_keys. by rewrite length_map.
    - pose proof (length_remove_dups_le (type_keys events)) as Hd.
      unfold type_keys in Hd at 2. rewrite length_map in Hd. lia. }
  assert (sum_list (most_common top_n (top_level_id_counts events)).*2
            = length events) as H2.
  { unfold top_level_id_counts. rewrite most_common_sum_eq.
    - unfold id_keys. by rewrite length_map.
    - pose proof (length_remove_dups_le (id_keys events)) as Hd.
      unfold id_keys in Hd at 2. rewrite length_map in Hd. lia. }
  assert (sum_list (most_common top_n (unknown_top_level_id_counts events)).*2
            = length (unknown_top_level events)) as H3.
  { unfold unknown_top_level_id_counts. rewrite most_common_sum_eq.
    - unfold unknown_id_keys. by rewrite length_map.
    - pose proof (length_remove_dups_le (unknown_id_keys events)) as Hd.
      unfold unknown_id_keys in Hd at 2. rewrite length_map in Hd. lia. }
  split_and!; try done.
  rewrite H3. unfold parsed_events, total_events. lia.
Qed.

(** With a limit of at least one and at least one event, the first row
    of the type table and of the identifier table carries a count that
    no key exceeds: the most frequent key comes first. *)
Theorem first_row_is_most_frequent (events : list Event) (top_n : Z) :
  1 ≤ top_n →
  events ≠ [] →
  ∃ r type_row id_row,
    aggregate events top_n = Some r
    ∧ head (r_type_table r) = Some type_row
    ∧ head (r_id_table r) = Some id_row
    ∧ (∀ k, occurrences k (type_keys events) ≤ type_row.2)%nat
    ∧ (∀ k, occurrences k (id_keys events) ≤ id_row.2)%nat.
Proof.
  intros Hn Hev.
  destruct (aggregate_Some events top_n)
    as (r & Hr & _ & _ & _ & _ & _ & _ & Ht & Hi & _).
  assert (type_keys events ≠ []) as Htk by by destruct events.
  assert (id_keys events ≠ []) as Hik by by destruct events.
  destruct (most_common_head_Some top_n _ Hn Htk) as [trow Htrow].
  destruct (most_common_head_Some top_n _ Hn Hik) as [irow Hirow].
  exists r, trow, irow. rewrite Ht, Hi.
  split_and!; try done.
  - by apply (most_common_head top_n).
  - by apply (most_common_head top_n).
Qed.

(** ** More on the tally of unknown sub-events *)

(** For any number of plugin events: the tally is made event by event,
    in the order of the events, and holds [(n, len)] exactly when some
    plugin event has a sub-event with the raw identifier [n] and [len]
    bytes of data. *)
Theorem unknown_sub_events_of_all_plugins (events1 events2 : list Event) :
  unknown_vst_subevents (events1 ++ events2)
    = unknown_vst_subevents events1 ++ unknown_vst_subevents events2
  ∧ ∀ n len,
      (n, len) ∈ unknown_vst_subevents events1
      ↔ ∃ event subs sub_event,
          event ∈ events1
          ∧ ev_class event = VSTPluginEvent subs
          ∧ sub_event ∈ subs
          ∧ sub_id sub_event = RawInt n
          ∧ length (sub_data sub_event) = len.
Proof.
  split.
  - by rewrite !unknown_vst_subevents_flat_map, flat_map_app.
  - intros n len. rewrite unknown_vst_subevents_flat_map.
    rewrite list_elem_of_In, in_flat_map. split.
    + intros (event & Hev & Hin). unfold nested_contribution in Hin.
      destruct (ev_class event) as [|subs|] eqn:Hc; try done.
      apply list_elem_of_In, list_elem_of_omap in Hin
        as (sub_event & Hsub & Hraw).
      unfold raw_entry in Hraw.
      destruct (sub_id sub_event) as [m|] eqn:Hid; [|done].
      injection Hraw as -> <-.
      exists event, subs, sub_event.
      split_and!; try done. by apply list_elem_of_In.
    + intros (event & subs & sub_event & Hev & Hc & Hsub & Hid & Hlen).
      exists event. split; [by apply list_elem_of_In|].
      unfold nested_contribution. rewrite Hc.
      apply list_elem_of_In, list_elem_of_omap. exists sub_event.
      split; [done|]. unfold raw_entry. by rewrite Hid, Hlen.
Qed.

(** ** More on the percentages *)


(** ** More on [html.escape] *)

Lemma escape_char_cases c :
  (plain (String c EmptyString) = true ∧ escape_char c = String c EmptyString)
  ∨ (plain (String c EmptyString) = false
     ∧ ∃ rest, escape_char c = String "&"%char rest ∧ rest ≠ EmptyString
         ∧ is_reference_tail rest = true).
Proof.
  unfold escape_char, is_delimiter. cbn [plain]. unfold is_delimiter.
  destruct (c =? "&")%char eqn:H1.
  { right. rewrite !andb_false_r. split; [done|]. by eexists. }
  destruct (c =? "<")%char eqn:H2.
  { right. split; [done|]. by eexists. }
  destruct (c =? ">")%char eqn:H3.
  { right. split; [done|]. by eexists. }
  destruct (c =? "034")%char eqn:H4.
  { right. split; [done|]. by eexists. }
  destruct (c =? "'")%char eqn:H5.
  { right. split; [done|]. by eexists. }
  by left.
Qed.

Lemma length_escape_char c :
  (1 ≤ String.length (escape_char c))%nat
  ∧ (plain (String c EmptyString) = false →
       2 ≤ String.length (escape_char c))%nat.
Proof.
  destruct (escape_char_cases c) as [[Hp ->]|[Hp (rest & -> & Hne & _)]].
  - split; [cbn; lia|]. by rewrite Hp.
  - split; [cbn; lia|]. intros _. destruct rest; [done|]. cbn. lia.
Qed.

Lemma string_length_app (a b : string) :
  String.length (a +:+ b) = (String.length a + String.length b)%nat.
Proof. induction a as [|c a IH]; cbn; [done|]. cbn in IH. by rewrite IH. Qed.

Lemma length_html_escape s :
  (String.length s ≤ String.length (html_escape s))%nat
  ∧ (plain s = false → String.length s < String.length (html_escape s))%nat.
Proof.
  induction s as [|c s [IH1 IH2]]; [done|].
  rewrite html_escape_cons, string_length_app.
  destruct (length_escape_char c) as [Hc1 Hc2].
  split; [cbn [String.length]; lia|].
  cbn [plain String.length]. intros Hp.
  destruct (plain s) eqn:Hs.
  - rewrite andb_true_r in Hp.
    assert (plain (String c EmptyString) = false) as Hc.
    { cbn [plain]. by rewrite andb_true_r. }
    specialize (Hc2 Hc). lia.
  - specialize (IH2 eq_refl). lia.
Qed.

Lemma html_escape_plain s : plain s = true → html_escape s = s.
Proof.
  induction s as [|c s IH]; [done|].
  cbn [plain]. intros [Hc Hs]%andb_true_iff.
  rewrite html_escape_cons, IH by done.
  destruct (escape_char_cases c) as [[_ ->]|[Hp _]]; [done|].
  cbn [plain] in Hp. rewrite andb_true_r in Hp. congruence.
Qed.

(** A text is left as it is by [html.escape] exactly when it has none of
    the five characters <, >, &, double quote and single quote; any other
    text gets longer. *)
Theorem html_escape_identity_iff_plain (text : string) :
  (html_escape text = text ↔ plain text = true)
  ∧ (String.length text ≤ String.length (html_escape text))%nat.
Proof.
  split; [|apply length_html_escape]. split.
  - intros Heq. destruct (plain text) eqn:Hp; [done|].
    destruct (length_html_escape text) as [_ Hlt].
    specialize (Hlt Hp). rewrite Heq in Hlt. lia.
  - apply html_escape_plain.
Qed.

(** Different texts stay different when escaped. *)
Theorem html_escape_injective (text1 text2 : string) :
  html_escape text1 = html_escape text2 → text1 = text2.
Proof.
  revert text2. induction text1 as [|c1 s1 IH]; intros [|c2 s2].
  - done.
  - rewrite html_escape_cons. intros Heq.
    destruct (escape_char_cases c2) as [[_ Hc]|[_ (rest & Hc & _)]];
      rewrite Hc in Heq; done.
  - rewrite html_escape_cons. intros Heq.
    destruct (escape_char_cases c1) as [[_ Hc]|[_ (rest & Hc & _)]];
      rewrite Hc in Heq; done.
  - rewrite !html_escape_cons. unfold escape_char.
    destruct (c1 =? "&")%char eqn:A1; [|
    destruct (c1 =? "<")%char eqn:A2; [|
    destruct (c1 =? ">")%char eqn:A3; [|
    destruct (c1 =? "034")%char eqn:A4; [|
    destruct (c1 =? "'")%char eqn:A5]]]];
    (destruct (c2 =? "&")%char eqn:B1; [|
     destruct (c2 =? "<")%char eqn:B2; [|
     destruct (c2 =? ">")%char eqn:B3; [|
     destruct (c2 =? "034")%char eqn:B4; [|
     destruct (c2 =? "'")%char eqn:B5]]]]);
    cbn; intros Heq; simplify_eq; try discriminate;
    rewrite ?Ascii.eqb_eq in *; simplify_eq;
    by f_equal; apply IH.
Qed.

(** ** [_event_id_name] *)

(** An identifier with a symbolic name is shown by that name.  One
    without is shown by its decimal numeral: a text without markup
    characters, which escaping leaves as it is, and different for
    different identifiers. *)
Theorem unnamed_ids_shown_as_distinct_numerals (event1 event2 : Event) :
  (∀ name, id_name (ev_id event1) = Some name →
     _event_id_name event1 = name)
  ∧ (id_name (ev_id event1) = None →
       plain (_event_id_name event1) = true
       ∧ html_escape (_event_id_name event1) = _event_id_name event1
       ∧ _event_id_name event1 ≠ EmptyString)
  ∧ (id_name (ev_id event1) = None →
     id_name (ev_id event2) = None →
     _event_id_name event1 = _event_id_name event2 →
     id_value (ev_id event1) = id_value (ev_id event2)).
Proof.
  unfold _event_id_name. split_and!.
  - by intros name ->.
  - intros ->.
    assert (plain (pretty (id_value (ev_id event1))) = true) as Hp
      by apply plain_pretty_Z.
    split; [done|]. split; [by apply html_escape_plain|].
    intros Hempty.
    assert (pretty (id_value (ev_id event1)) = pretty 0 → False) as Hne.
    { rewrite Hempty. done. }
    destruct (id_value (ev_id event1)) as [|p|p] eqn:Hv; [done| |done].
    clear Hne. unfold pretty, pretty_Z, pretty, pretty_positive, pretty,
      pretty_N in Hempty.
    rewrite decide_False in Hempty by done.
    assert (String.length (pretty_N_go (N.pos p) EmptyString) = 0%nat) as Hl
      by by rewrite Hempty.
    rewrite pretty_N_go_step in Hl by lia.
    revert Hl. generalize (N.pos p `div` 10)%N.
    generalize (pretty_N_char (N.pos p `mod` 10)).
    intros a n Hl.
    assert (∀ n s, (String.length s ≤ String.length (pretty_N_go n s))%nat)
      as Hmono.
    { clear. intros n. induction (N.lt_wf_0 n) as [n _ IH]. intros s.
      destruct (decide (n = 0)%N) as [->|Hn]; [done|].
      rewrite pretty_N_go_step by lia.
      etrans; [|apply IH; apply N.div_lt; lia]. cbn. lia. }
    pose proof (Hmono n (String a EmptyString)) as Hn.
    rewrite Hl in Hn. cbn in Hn. lia.
  - intros -> -> Heq. by apply (inj pretty) in Heq.
Qed.

(** ** More on the rendered document *)

(** A table body is the placeholder row exactly when the table has no
    row; otherwise it is the rows of the table, in their order, one per
    line. *)
Theorem placeholder_row_iff_table_empty (r : Report) :
  (type_rows r = no_events_2 ↔ r_type_table r = [])
  ∧ (id_rows r = no_events_4 ↔ r_id_table r = [])
  ∧ (unknown_top_level_rows r = none_2 ↔ r_unknown_top_level_table r = [])
  ∧ (unknown_vst_rows r = none_2 ↔ r_unknown_vst_table r = [])
  ∧ type_rows r =
      match r_type_table r with
      | [] => no_events_2
      | _ :: _ => str_join nl (map type_row (r_type_table r))
      end
  ∧ id_rows r =
      match r_id_table r with
      | [] => no_events_4
      | _ :: _ => str_join nl (map id_row (r_id_table r))
      end
  ∧ unknown_top_level_rows r =
      match r_unknown_top_level_table r with
      | [] => none_2
      | _ :: _ => str_join nl (map count_row (r_unknown_top_level_table r))
      end
  ∧ unknown_vst_rows r =
      match r_unknown_vst_table r with
      | [] => none_2
      | _ :: _ => str_join nl (map count_row (r_unknown_vst_table r))
      end.
Proof.
  unfold type_rows, id_rows, unknown_top_level_rows, unknown_vst_rows.
  rewrite (rows_or_map _ type_row) by apply type_row_nonempty.
  rewrite (rows_or_map _ id_row) by apply id_row_nonempty.
  rewrite !(rows_or_map _ count_row) by apply count_row_nonempty.
  split_and!; try done.
  - destruct (r_type_table r) as [|row [|row' l]]; [done|..];
      (split; [|done]); cbn; unfold type_row; cbn; discriminate.
  - destruct (r_id_table r) as [|[[[? ?] ?] ?] [|row' l]]; [done|..];
      (split; [|done]); cbn; discriminate.
  - destruct (r_unknown_top_level_table r) as [|row [|row' l]]; [done|..];
      (split; [|done]); cbn; unfold count_row; cbn; discriminate.
  - destruct (r_unknown_vst_table r) as [|row [|row' l]]; [done|..];
      (split; [|done]); cbn; unfold count_row; cbn; discriminate.
Qed.

#[local] Transparent render_report.


#[local] Opaque render_report.

(** ** More on the program *)

Lemma import_keeps_files_and_stdout (env : Env) (w : World) :
  files (_import_pyflp env w).2 = files w
  ∧ stdout (_import_pyflp env w).2 = stdout w.
Proof.
  unfold _import_pyflp, get_world, sys_path_insert0, raise,
    mbind, mret, M_bind, M_ret.
  cbn. repeat (case_match; simplify_eq/=; try done).
Qed.

(** [_import_pyflp] never touches the files or the standard output.  It
    changes [sys.path] only after a [ModuleNotFoundError] of the first
    attempt, by putting the repository root in front, and only when the
    root is not on the path yet; when the first attempt succeeds nothing
    changes at all. *)
Theorem import_changes_only_sys_path (env : Env) (w : World) :
  files (_import_pyflp env w).2 = files w
  ∧ stdout (_import_pyflp env w).2 = stdout w
  ∧ (sys_path (_import_pyflp env w).2 = sys_path w
     ∨ (sys_path (_import_pyflp env w).2 = repo_root env :: sys_path w
        ∧ (repo_root env ∉ sys_path w)
        ∧ ∃ name,
            run_imports env (sys_path w) = Some (ModuleNotFoundError name)))
  ∧ match run_imports env (sys_path w) with
    | None => _import_pyflp env w = (inr (), w)
    | Some _ => True
    end.
Proof.
  unfold _import_pyflp, get_world, sys_path_insert0, raise,
    mbind, mret, M_bind, M_ret.
  cbn.
  destruct (run_imports env (sys_path w)) as [[name| |]|] eqn:H1; cbn;
    try (split_and!; try done; by left).
  destruct (decide (repo_root env ∈ sys_path w)) as [Hin|Hin]; cbn.
  - rewrite H1. split_and!; try done. by left.
  - destruct (run_imports env (repo_root env :: sys_path w))
      as [[name2| |]|]; cbn; split_and!; try done; right; eauto.
Qed.

(** An error of the imports that is not a [ModuleNotFoundError] is not
    handled: it is raised as it is, at the first attempt without any
    change of [sys.path], and just the same at the second attempt. *)
Theorem other_import_errors_propagate
    (env : Env) (w : World) (e : Exception) :
  (∀ name, e ≠ ModuleNotFoundError name) →
  (run_imports env (sys_path w) = Some e → _import_pyflp env w = (inl e, w))
  ∧ (∀ name,
       run_imports env (sys_path w) = Some (ModuleNotFoundError name) →
       run_imports env
         (if decide (repo_root env ∈ sys_path w) then sys_path w
          else repo_root env :: sys_path w) = Some e →
       (_import_pyflp env w).1 = inl e).
Proof.
  intros He.
  unfold _import_pyflp, get_world, sys_path_insert0, raise,
    mbind, mret, M_bind, M_ret.
  cbn. split.
  - intros ->. destruct e; try done. by destruct (He name).
  - intros name ->.
    destruct (decide (repo_root env ∈ sys_path w)); cbn; intros ->;
      destruct e; try done; by destruct (He name0).
Qed.

(** The message of the fatal exit names the missing module, or says
    "dependency" when the error carries no name or an empty one. *)
Theorem import_failure_names_missing_module
    (env : Env) (w : World) (name1 name2 : option string) :
  run_imports env (sys_path w) = Some (ModuleNotFoundError name1) →
  run_imports env
    (if decide (repo_root env ∈ sys_path w) then sys_path w
     else repo_root env :: sys_path w)
    = Some (ModuleNotFoundError name2) →
  ∃ message,
    (_import_pyflp env w).1 = inl (SystemExit message)
    ∧ starts_with
        ("Could not import pyflp runtime dependency " +:+ "(" +:+
         (match name2 with
          | None => "dependency"
          | Some module =>
              if decide (module = EmptyString) then "dependency" else module
          end) +:+ ").")
        message.
Proof.
  intros H1 H2. exists (import_failure_message (missing_name name2)).
  split.
  - unfold _import_pyflp, get_world, sys_path_insert0, raise,
      mbind, mret, M_bind, M_ret.
    cbn. rewrite H1.
    destruct (decide (repo_root env ∈ sys_path w)); cbn; by rewrite H2.
  - assert (missing_name name2 =
      match name2 with
      | None => "dependency"
      | Some module =>
          if decide (module = EmptyString) then "dependency" else module
      end) as <-.
    { by destruct name2 as [[|c s]|]. }
    unfold import_failure_message. match_pieces.
Qed.


(** An error of the parser is raised by [main] as it is: no file is
    written, nothing is printed, and the status of the process is 1. *)
Theorem parse_failure_propagates
    (env : Env) (args : Args) (w w1 : World) (e : Exception) :
  _import_pyflp env w = (inr (), w1) →
  pyflp_parse env (files w) (flp_file args) = inl e →
  main env args w = (inl e, w1)
  ∧ files w1 = files w
  ∧ stdout w1 = stdout w
  ∧ exit_status (main env args w).1 = 1.
Proof.
  intros Himp Hparse.
  destruct (import_keeps_files_and_stdout env w) as (Hf & Hs).
  rewrite Himp in Hf, Hs. cbn in Hf, Hs.
  assert (main env args w = (inl e, w1)) as Hmain.
  { unfold main, load_events, get_world, raise, mbind, mret, M_bind, M_ret.
    rewrite Himp. cbn. by rewrite Hf, Hparse. }
  rewrite Hmain. done.
Qed.

(** When the output file cannot be opened for writing, [main] fails
    after the report was built: the files stay as they were and the line
    that announces the report is not printed. *)
Theorem write_failure_prints_nothing
    (env : Env) (args : Args) (w w1 : World) (events : list Event) :
  _import_pyflp env w = (inr (), w1) →
  pyflp_parse env (files w) (flp_file args) = inr events →
  writable env (output args) = false →
  main env args w = (inl (OtherError "OSError"), w1)
  ∧ files w1 = files w
  ∧ stdout w1 = stdout w
  ∧ exit_status (main env args w).1 = 1.
Proof.
  intros Himp Hparse Hw.
  destruct (import_keeps_files_and_stdout env w) as (Hf & Hs).
  rewrite Himp in Hf, Hs. cbn in Hf, Hs.
  destruct (build_report_Some (resolve env (flp_file args)) events (top args))
    as (r & _ & Hdoc).
  assert (main env args w = (inl (OtherError "OSError"), w1)) as Hmain.
  { unfold main, load_events, get_world, write_text, raise,
      mbind, mret, M_bind, M_ret.
    rewrite Himp. cbn. rewrite Hf, Hparse. cbn. rewrite Hdoc. cbn.
    by rewrite Hw. }
  rewrite Hmain. done.
Qed.


(** ** The further properties at the sample inputs *)

Lemma full_tables_account_for_every_event_witness :
  Z.of_nat (length sample_events) ≤ 25
  ∧ ∃ r, aggregate sample_events 25 = Some r
      ∧ sum_list (r_type_table r).*2 = length sample_events.
Proof.
  split; [cbn; lia|].
  destruct (full_tables_account_for_every_event sample_events 25
              ltac:(cbn; lia)) as (r & Hr & Ht & _).
  exists r. split; [exact Hr|exact Ht].
Defined.

Lemma first_row_is_most_frequent_witness :
  1 ≤ 1
  ∧ sample_events ≠ []
  ∧ ∃ r type_row,
      aggregate sample_events 1 = Some r
      ∧ head (r_type_table r) = Some type_row
      ∧ (∀ k, occurrences k (type_keys sample_events) ≤ type_row.2)%nat.
Proof.
  split; [lia|]. split; [discriminate|].
  destruct (first_row_is_most_frequent sample_events 1
              ltac:(lia) ltac:(discriminate))
    as (r & trow & irow & Hr & Ht & _ & Hmax & _).
  exists r, trow. split; [exact Hr|]. split; [exact Ht|exact Hmax].
Defined.

Lemma html_escape_injective_witness :
  html_escape "a<b" = html_escape "a<b" ∧ "a<b" = "a<b".
Proof.
  split; [reflexivity|]. apply html_escape_injective. reflexivity.
Defined.

Lemma other_import_errors_propagate_witness :
  (∀ name, OtherError "ImportError" ≠ ModuleNotFoundError name)
  ∧ _import_pyflp sample_env_broken sample_world
      = (inl (OtherError "ImportError"), sample_world).
Proof.
  split; [discriminate|].
  exact (proj1 (other_import_errors_propagate
    sample_env_broken sample_world (OtherError "ImportError")
    ltac:(discriminate)) eq_refl).
Defined.

Lemma import_failure_names_missing_module_witness :
  run_imports sample_env_no_parser (sys_path sample_world)
    = Some (ModuleNotFoundError (Some "pyflp"))
  ∧ run_imports sample_env_no_parser
      (if decide (repo_root sample_env_no_parser ∈ sys_path sample_world)
       then sys_path sample_world
       else repo_root sample_env_no_parser :: sys_path sample_world)
    = Some (ModuleNotFoundError (Some "pyflp"))
  ∧ ∃ message,
      (_import_pyflp sample_env_no_parser sample_world).1
        = inl (SystemExit message)
      ∧ starts_with
          ("Could not import pyflp runtime dependency " +:+ "(" +:+
           "pyflp" +:+ ").")
          message.
Proof.
  split; [reflexivity|]. split; [reflexivity|].
  exact (import_failure_names_missing_module
    sample_env_no_parser sample_world (Some "pyflp") (Some "pyflp")
    eq_refl eq_refl).
Defined.


Lemma parse_failure_propagates_witness :
  _import_pyflp sample_env_bad_file sample_world = (inr (), sample_world)
  ∧ pyflp_parse sample_env_bad_file (files sample_world)
      (flp_file sample_args) = inl (OtherError "HeaderCorrupted")
  ∧ main sample_env_bad_file sample_args sample_world
      = (inl (OtherError "HeaderCorrupted"), sample_world).
Proof.
  split; [reflexivity|]. split; [reflexivity|].
  exact (proj1 (parse_failure_propagates
    sample_env_bad_file sample_args sample_world sample_world
    (OtherError "HeaderCorrupted") eq_refl eq_refl)).
Defined.

Lemma write_failure_prints_nothing_witness :
  _import_pyflp sample_env_read_only sample_world = (inr (), sample_world)
  ∧ pyflp_parse sample_env_read_only (files sample_world)
      (flp_file sample_args) = inr sample_events
  ∧ writable sample_env_read_only (output sample_args) = false
  ∧ main sample_env_read_only sample_args sample_world
      = (inl (OtherError "OSError"), sample_world).
Proof.
  split; [reflexivity|]. split; [reflexivity|]. split; [reflexivity|].
  exact (proj1 (write_failure_prints_nothing
    sample_env_read_only sample_args sample_world sample_world sample_events
    eq_refl eq_refl eq_refl)).
Defined.
